(** * piper_boot_init: the one-shot bring-up sequence of the Piper arm

    A shallow embedding of [src/piper_boot_init.cpp].  The program talks to
    a device through [piper_sdk::PiperInterface], sleeps, reads a monotonic
    clock and polls the process-wide flag [g_shutdown_requested].  All of
    that is modelled by explicit state passing over a [World] (the clock and
    the history of what the program did so far); the device and the signal
    source are oracles that answer from the history.  Time is counted in
    milliseconds; it passes in sleeps and in device calls only. *)

From Stdlib Require Import ZArith List String Bool Lia.
From Stdlib Require Import DecimalString.
From ExtLib Require Import Structures.Monad.
Import ListNotations.
Import MonadNotation.
Local Open Scope string_scope.
Local Open Scope list_scope.
Local Open Scope Z_scope.
Local Open Scope monad_scope.

Notation "a +++ b" := (String.append a b) (at level 60, right associativity).

(** ** Outcomes *)

(** [enum class InitError : int]. *)
Inductive InitError : Type :=
| OK
| CAN_OPEN_FAILED
| CONNECT_FAILED
| ENABLE_FAILED
| ENABLE_TIMEOUT
| HOME_FAILED
| HOME_TIMEOUT
| SIGNAL_INTERRUPTED
| STATUS_CHECK_FAILED
| ARM_ERROR.

(** [static_cast<int>(result)]: the enumerators' values. *)
Definition exit_code (e : InitError) : Z :=
  match e with
  | OK => 0
  | CAN_OPEN_FAILED => 1
  | CONNECT_FAILED => 2
  | ENABLE_FAILED => 3
  | ENABLE_TIMEOUT => 4
  | HOME_FAILED => 5
  | HOME_TIMEOUT => 6
  | SIGNAL_INTERRUPTED => 7
  | STATUS_CHECK_FAILED => 8
  | ARM_ERROR => 9
  end.

Definition InitError_eqb (a b : InitError) : bool := exit_code a =? exit_code b.

(** ** Configuration *)

(** [PiperInitializer::Config]; durations are [std::chrono::milliseconds]
    counts, joints are [int32_t] thousandths of a degree. *)
Record Config : Type := {
  can_interface : string;
  connect_timeout : Z;
  enable_timeout : Z;
  home_timeout : Z;
  status_poll_interval : Z;
  home_retry_count : Z;
  motion_speed_percent : Z;
  target_joints : list Z
}.

(** The default member initialisers of [Config]. *)
Definition default_config : Config := {|
  can_interface := "can0";
  connect_timeout := 5000;
  enable_timeout := 10000;
  home_timeout := 60000;
  status_poll_interval := 50;
  home_retry_count := 2;
  motion_speed_percent := 30;
  target_joints := [0; 0; 0; 0; 0; 0]
|}.

(** ** The device interface *)

(** Modelled from the spec: the result type of the [piper_sdk] commands
    (header [piper_sdk/piper_interface.hpp] is not part of the sources);
    the program reads [.ok] and [.message]. *)
Record CommandResult : Type := { ok : bool; message : string }.

(** Modelled from the spec: the value of [get_connect_status()]; the
    program reads [.connected] and [.stale]. *)
Record ConnectStatus : Type := { connected : bool; stale : bool }.

(** Modelled from the spec: the snapshot behind [get_arm_status()]; the
    program reads [error_code], [enabled], [control_mode] and
    [joints.position_mdeg] (taken as [int32_t] like the targets). *)
Record ArmStatus : Type := {
  error_code : Z;
  enabled : bool;
  control_mode : Z;
  position_mdeg : list Z
}.

(** The six steps of [run], in order.  Every device call in the history
    records the step that issued it. *)
Inductive Step : Type :=
| Create | Connect | AwaitLink | CheckStatus | Enable | Home.

Definition step_index (s : Step) : nat :=
  match s with
  | Create => 1 | Connect => 2 | AwaitLink => 3
  | CheckStatus => 4 | Enable => 5 | Home => 6
  end%nat.

(** The calls the program makes on the transport and on [piper_]. *)
Inductive Command : Type :=
| make_transport (name : string)
| make_interface (name : string)
| connect_port (poll_ms : Z) (a b : bool)
| get_connect_status
| get_piper_firmware_version
| get_cached_firmware_version
| get_arm_status
| reset_arm
| enable_arm (motor : Z)
| enable_piper
| motion_control_2 (ctrl move speed mit residence install : Z)
| move_joint (joints : list Z).

(** The places where [g_shutdown_requested] is read. *)
Inductive Loop : Type :=
| AwaitLinkLoop | EnableFastLoop | EnableLongLoop | HomeRetryLoop | HomeWaitLoop.

(** [Logger::Level]. *)
Inductive Level : Type := DEBUG | INFO | WARN | ERROR.

Inductive Event : Type :=
| Called (s : Step) (c : Command)
| Slept (ms : Z)
| ShutdownRead (l : Loop) (flag : bool)
| Logged (lvl : Level) (msg : string).

(** The clock ([steady_clock], in milliseconds) and the history, newest
    event first. *)
Record World : Type := { now : Z; trace : list Event }.

(** Modelled from the spec: the behaviour of the external collaborators
    (the [piper_sdk] device interface and the signal source), which the
    sources only call.  Each answer may depend on everything that happened
    so far.  A constructor answers [Some what] when it throws. *)
Record Device : Type := {
  on_make_transport : World -> option string;
  on_make_interface : World -> option string;
  on_connect_port : World -> CommandResult;
  on_get_connect_status : World -> ConnectStatus;
  on_get_cached_firmware_version : World -> option string;
  on_get_arm_status : World -> option ArmStatus;
  on_enable_arm : World -> CommandResult;
  on_enable_piper : World -> bool;
  on_motion_control_2 : World -> CommandResult;
  on_move_joint : World -> CommandResult;
  call_duration : Command -> World -> Z;
  g_shutdown_requested : World -> bool
}.

(** ** The monad of the embedding *)

(** A computation ends with a value and a new world, hits undefined
    behaviour of the C++ program, or exhausts the fuel of a deadline loop. *)
Inductive Res (A : Type) : Type :=
| Ret (a : A) (w : World)
| Undefined
| OutOfFuel.
Arguments Ret {A} a w.
Arguments Undefined {A}.
Arguments OutOfFuel {A}.

Definition M (A : Type) : Type := World -> Res A.

Definition mret {A : Type} (a : A) : M A := fun w => Ret a w.

Definition mbind {A B : Type} (m : M A) (f : A -> M B) : M B :=
  fun w =>
    match m w with
    | Ret a w' => f a w'
    | Undefined => Undefined
    | OutOfFuel => OutOfFuel
    end.

#[global] Instance Monad_M : Monad M := {| ret := @mret; bind := @mbind |}.

(** ** Integer helpers *)

(** [std::to_string] on an integer. *)
Definition to_string (z : Z) : string := NilZero.string_of_int (Z.to_int z).

(** Two's-complement reduction to [int32_t]. *)
Definition wrap32 (z : Z) : Z := (z + 2 ^ 31) mod 2 ^ 32 - 2 ^ 31.

(** [constexpr int32_t kPositionTolerance = 1000]. *)
Definition kPositionTolerance : Z := 1000.

(** [constexpr int MAX_RETRIES = 200]. *)
Definition MAX_RETRIES : Z := 200.

(** [int32_t diff = std::abs(position_mdeg[i] - target_joints[i])]. *)
Definition joint_diff (p t : Z) : Z := wrap32 (Z.abs (wrap32 (p - t))).

(** The inner [for] loop of [waitHomingDone]: index [i] runs while it is
    below both sizes; [n] bounds the iterations left.  The result is the
    final value of [all_at_target]. *)
Fixpoint all_at_target_from (n i : nat) (position target : list Z) : bool :=
  match n with
  | O => true
  | S n' =>
      match nth_error position i, nth_error target i with
      | Some p, Some t =>
          if kPositionTolerance <? joint_diff p t then false
          else all_at_target_from n' (S i) position target
      | _, _ => true
      end
  end.

Definition all_at_target (position target : list Z) : bool :=
  all_at_target_from (List.length position) 0 position target.

(** ** Primitive actions *)

Definition extend (dt : Z) (e : Event) (w : World) : World :=
  {| now := now w + Z.max 0 dt; trace := e :: trace w |}.

Definition log (lvl : Level) (msg : string) : M unit :=
  fun w => Ret tt (extend 0 (Logged lvl msg) w).

Definition info : string -> M unit := log INFO.
Definition warn : string -> M unit := log WARN.
Definition error : string -> M unit := log ERROR.

(** [std::this_thread::sleep_for]. *)
Definition sleep_for (ms : Z) : M unit :=
  fun w => Ret tt (extend ms (Slept ms) w).

(** [std::chrono::steady_clock::now()]. *)
Definition steady_clock_now : M Z := fun w => Ret (now w) w.

(** Dereferencing an optional: undefined when it is empty. *)
Definition deref {A : Type} (o : option A) : M A :=
  fun w => match o with Some a => Ret a w | None => Undefined end.

Definition skip : M unit := ret tt.

Section Initializer.

Variable config_ : Config.
Variable piper_ : Device.
(** Iterations granted to each deadline-bounded loop. *)
Variable fuel : nat.

(** A call on the device: it answers from the world it is issued in,
    takes [call_duration] and is recorded with the issuing step. *)
Definition call {A : Type} (s : Step) (c : Command) (answer : World -> A) : M A :=
  fun w => Ret (answer w) (extend (call_duration piper_ c w) (Called s c) w).

(** [if (g_shutdown_requested)]. *)
Definition shutdown_check (l : Loop) : M bool :=
  fun w =>
    let b := g_shutdown_requested piper_ w in
    Ret b (extend 0 (ShutdownRead l b) w).

(** *** Step 1 *)

Definition createInterface : M InitError :=
  info "[1/5] Creating CAN transport..." ;;
  thrown <- call Create (make_transport (can_interface config_))
              (on_make_transport piper_) ;;
  match thrown with
  | Some what =>
      error ("Failed to create interface: " +++ what) ;;
      ret CAN_OPEN_FAILED
  | None =>
      thrown' <- call Create (make_interface (can_interface config_))
                   (on_make_interface piper_) ;;
      match thrown' with
      | Some what =>
          error ("Failed to create interface: " +++ what) ;;
          ret CAN_OPEN_FAILED
      | None => ret OK
      end
  end.

(** *** Step 2 *)

Definition connectPort : M InitError :=
  info "[2/5] Connecting CAN port..." ;;
  result <- call Connect (connect_port 10 true true) (on_connect_port piper_) ;;
  if negb (ok result) then
    error ("Failed to connect port: " +++ message result) ;;
    ret CONNECT_FAILED
  else
    sleep_for 200 ;;
    ret OK.

(** *** Step 3 *)

Fixpoint waitForConnection_loop (n : nat) (deadline : Z) : M InitError :=
  match n with
  | O => fun _ => OutOfFuel
  | S n' =>
      t <- steady_clock_now ;;
      if t <? deadline then
        stop <- shutdown_check AwaitLinkLoop ;;
        if stop : bool then
          warn "Interrupted" ;;
          ret SIGNAL_INTERRUPTED
        else
          status <- call AwaitLink get_connect_status (on_get_connect_status piper_) ;;
          if connected status && negb (stale status) then
            info "Communication established" ;;
            call AwaitLink get_piper_firmware_version (fun _ => tt) ;;
            sleep_for 100 ;;
            fw_version <- call AwaitLink get_cached_firmware_version
                            (on_get_cached_firmware_version piper_) ;;
            match fw_version with
            | Some v => info ("Firmware: " +++ v)
            | None => skip
            end ;;
            ret OK
          else
            sleep_for (status_poll_interval config_) ;;
            waitForConnection_loop n' deadline
      else
        error "Connection timeout" ;;
        ret CONNECT_FAILED
  end.

Definition waitForConnection : M InitError :=
  info "[3/5] Waiting for communication..." ;;
  t <- steady_clock_now ;;
  waitForConnection_loop fuel (t + connect_timeout config_).

(** *** Step 4 *)

(** The block that runs when the first snapshot carries an error, up to
    the second fetch. *)
Definition reset_and_settle (code : Z) : M unit :=
  error ("Arm error code: " +++ to_string code) ;;
  info "Trying to reset..." ;;
  call CheckStatus reset_arm (fun _ => tt) ;;
  sleep_for 500.

(** The closing log line: it reads [arm_status->enabled] and
    [arm_status->control_mode] whatever [arm_status] holds by then. *)
Definition report_status (arm_status : option ArmStatus) : M InitError :=
  st <- deref arm_status ;;
  info ("Connected: " +++ (if enabled st then "yes" else "no")
        +++ ", mode: " +++ to_string (control_mode st)) ;;
  ret OK.

Definition checkArmStatus : M InitError :=
  info "[4/5] Checking arm status..." ;;
  arm_status <- call CheckStatus get_arm_status (on_get_arm_status piper_) ;;
  match arm_status with
  | None =>
      warn "Cannot get arm status, continuing..." ;;
      ret OK
  | Some st =>
      if negb (error_code st =? 0) then
        reset_and_settle (error_code st) ;;
        arm_status' <- call CheckStatus get_arm_status (on_get_arm_status piper_) ;;
        match arm_status' with
        | Some st' =>
            if negb (error_code st' =? 0) then
              error "Reset failed" ;;
              ret ARM_ERROR
            else report_status arm_status'
        | None => report_status arm_status'
        end
      else report_status arm_status
  end.

(** *** Step 5 *)

(** The first [while]: the guard calls [enable_piper()] before it looks
    at [retry_count].  [n] bounds the guard evaluations left. *)
Fixpoint enable_fast_loop (n : nat) (retry_count : Z) : M (InitError + Z) :=
  match n with
  | O => fun _ => OutOfFuel
  | S n' =>
      confirmed <- call Enable enable_piper (on_enable_piper piper_) ;;
      if negb confirmed && (retry_count <? MAX_RETRIES) then
        stop <- shutdown_check EnableFastLoop ;;
        if stop : bool then ret (inl SIGNAL_INTERRUPTED)
        else
          sleep_for 10 ;;
          enable_fast_loop n' (retry_count + 1)
      else ret (inr retry_count)
  end.

Fixpoint enable_long_loop (n : nat) (deadline : Z) : M InitError :=
  match n with
  | O => fun _ => OutOfFuel
  | S n' =>
      t <- steady_clock_now ;;
      if t <? deadline then
        stop <- shutdown_check EnableLongLoop ;;
        if stop : bool then ret SIGNAL_INTERRUPTED
        else
          confirmed <- call Enable enable_piper (on_enable_piper piper_) ;;
          if confirmed : bool then
            info "Arm enabled" ;;
            ret OK
          else
            sleep_for (status_poll_interval config_) ;;
            enable_long_loop n' deadline
      else
        error "Enable timeout" ;;
        ret ENABLE_TIMEOUT
  end.

(** The enable command and its acknowledgment. *)
Definition send_enable : M unit :=
  info "[5/5] Enabling arm..." ;;
  result <- call Enable (enable_arm 7) (on_enable_arm piper_) ;;
  if negb (ok result) then warn ("Enable command failed: " +++ message result)
  else skip.

(** What follows the first [while]. *)
Definition enable_escalate (r : InitError + Z) : M InitError :=
  match r with
  | inl e => ret e
  | inr retry_count =>
      if MAX_RETRIES <=? retry_count then
        t <- steady_clock_now ;;
        enable_long_loop fuel (t + enable_timeout config_)
      else
        info "Arm enabled" ;;
        ret OK
  end.

Definition enableMotors : M InitError :=
  send_enable ;;
  r <- enable_fast_loop (S (Z.to_nat MAX_RETRIES)) 0 ;;
  enable_escalate r.

(** *** Step 6 *)

(** One poll of [waitHomingDone] after the cancellation check:
    [Some r] returns [r], [None] sleeps and polls again. *)
Definition homing_poll : M (option InitError) :=
  arm_status <- call Home get_arm_status (on_get_arm_status piper_) ;;
  match arm_status with
  | Some st =>
      if negb (error_code st =? 0) then
        error ("Arm error: " +++ to_string (error_code st)) ;;
        ret (Some ARM_ERROR)
      else if all_at_target (position_mdeg st) (target_joints config_) then
        info "Target position reached" ;;
        ret (Some OK)
      else ret None
  | None => ret None
  end.

Fixpoint waitHomingDone_loop (n : nat) (deadline : Z) : M InitError :=
  match n with
  | O => fun _ => OutOfFuel
  | S n' =>
      t <- steady_clock_now ;;
      if t <? deadline then
        stop <- shutdown_check HomeWaitLoop ;;
        if stop : bool then ret SIGNAL_INTERRUPTED
        else
          r <- homing_poll ;;
          match r with
          | Some e => ret e
          | None =>
              sleep_for (status_poll_interval config_) ;;
              waitHomingDone_loop n' deadline
          end
      else
        error "Move to target timeout" ;;
        ret HOME_TIMEOUT
  end.

Definition waitHomingDone : M InitError :=
  t <- steady_clock_now ;;
  waitHomingDone_loop fuel (t + home_timeout config_).

(** The [for] loop of [performHoming]; [n] bounds the iterations left
    and [retry] is the loop variable. *)
Fixpoint homing_loop (n : nat) (retry : Z) : M InitError :=
  if retry <? home_retry_count config_ then
    match n with
    | O => fun _ => OutOfFuel
    | S n' =>
        stop <- shutdown_check HomeRetryLoop ;;
        if stop : bool then ret SIGNAL_INTERRUPTED
        else
          (if 0 <? retry then
             warn ("Homing retry #" +++ to_string retry) ;;
             sleep_for 1000
           else skip) ;;
          mode_result <- call Home
                           (motion_control_2 1 1 (motion_speed_percent config_) 0 0 0)
                           (on_motion_control_2 piper_) ;;
          if negb (ok mode_result) then
            warn ("Set motion mode failed: " +++ message mode_result) ;;
            homing_loop n' (retry + 1)
          else
            sleep_for 100 ;;
            move_result <- call Home (move_joint (target_joints config_))
                             (on_move_joint piper_) ;;
            if negb (ok move_result) then
              warn ("Homing command failed: " +++ message move_result) ;;
              homing_loop n' (retry + 1)
            else
              info "Homing command sent, waiting..." ;;
              wait_result <- waitHomingDone ;;
              if InitError_eqb wait_result OK then ret OK
              else if InitError_eqb wait_result SIGNAL_INTERRUPTED then ret wait_result
              else homing_loop n' (retry + 1)
    end
  else
    error "Homing failed" ;;
    ret HOME_FAILED.

Definition performHoming : M InitError :=
  info "Performing homing..." ;;
  homing_loop (Z.to_nat (home_retry_count config_)) 0.

(** *** The orchestrator *)

Definition run : M InitError :=
  info ("Piper arm init started, CAN: " +++ can_interface config_) ;;
  err <- createInterface ;;
  if negb (InitError_eqb err OK) then ret err else
  err <- connectPort ;;
  if negb (InitError_eqb err OK) then ret err else
  err <- waitForConnection ;;
  if negb (InitError_eqb err OK) then ret err else
  err <- checkArmStatus ;;
  if negb (InitError_eqb err OK) then ret err else
  err <- enableMotors ;;
  if negb (InitError_eqb err OK) then ret err else
  err <- performHoming ;;
  if negb (InitError_eqb err OK) then ret err else
  info "Piper arm init completed" ;;
  ret OK.

End Initializer.

(** [main]: the configuration it builds and the exit code it returns.
    The handlers it installs first only set [g_shutdown_requested], whose
    value over time is the [Device]'s answer. *)
Definition main_config : Config := {|
  can_interface := can_interface default_config;
  connect_timeout := connect_timeout default_config;
  enable_timeout := enable_timeout default_config;
  home_timeout := home_timeout default_config;
  status_poll_interval := status_poll_interval default_config;
  home_retry_count := home_retry_count default_config;
  motion_speed_percent := motion_speed_percent default_config;
  target_joints := [-90000; 0; 0; 0; 0; 0]
|}.

Definition main (piper_ : Device) (fuel : nat) : M Z :=
  result <- run main_config piper_ fuel ;;
  (if InitError_eqb result OK then info "Exit code: 0"
   else error ("Exit code: " +++ to_string (exit_code result))) ;;
  ret (exit_code result).

(** ** The sequence of steps, as a list

    [run] is a chain of six [if (err != OK) return err;].  [run_steps] is
    the same chain over a list of steps; [run_as_steps] below shows that it
    is [run]. *)

Definition step_fn (cfg : Config) (dev : Device) (fuel : nat) (s : Step) : M InitError :=
  match s with
  | Create => createInterface cfg dev
  | Connect => connectPort dev
  | AwaitLink => waitForConnection cfg dev fuel
  | CheckStatus => checkArmStatus dev
  | Enable => enableMotors cfg dev fuel
  | Home => performHoming cfg dev fuel
  end.

Definition all_steps : list Step :=
  [Create; Connect; AwaitLink; CheckStatus; Enable; Home].

Fixpoint run_steps (cfg : Config) (dev : Device) (fuel : nat) (l : list Step) : M InitError :=
  match l with
  | [] => info "Piper arm init completed" ;; ret OK
  | s :: l' =>
      err <- step_fn cfg dev fuel s ;;
      if negb (InitError_eqb err OK) then ret err
      else run_steps cfg dev fuel l'
  end.

(** The world in which step 1 starts: [run]'s opening log line is out. *)
Definition started (cfg : Config) (w : World) : World :=
  extend 0 (Logged INFO ("Piper arm init started, CAN: " +++ can_interface cfg)) w.

(** The steps of [l] all return [OK], one after the other. *)
Fixpoint all_ok (cfg : Config) (dev : Device) (fuel : nat) (l : list Step) (w : World)
  : option World :=
  match l with
  | [] => Some w
  | s :: l' =>
      match step_fn cfg dev fuel s w with
      | Ret OK w1 => all_ok cfg dev fuel l' w1
      | _ => None
      end
  end.

Definition steps_before (k : Step) : list Step :=
  firstn (step_index k - 1) all_steps.

Definition steps_after (k : Step) : list Step :=
  skipn (step_index k) all_steps.

(** ** Reading the history *)

(** [grows w w' evs]: [w'] is [w] after the events [evs] (newest first). *)
Inductive grows (w : World) : World -> list Event -> Prop :=
| grows_refl : grows w w []
| grows_step dt e w1 evs : grows w w1 evs -> grows w (extend dt e w1) (e :: evs).

(** A read of the cancellation flag that saw it set. *)
Definition is_stop (e : Event) : bool :=
  match e with ShutdownRead _ true => true | _ => false end.

Definition stop_seen (evs : list Event) : bool := existsb is_stop evs.

(** The newest event that is not a log line is a read of the cancellation
    flag that saw it set: nothing but logging happened since. *)
Fixpoint halted (evs : list Event) : bool :=
  match evs with
  | Logged _ _ :: rest => halted rest
  | ShutdownRead _ true :: _ => true
  | _ => false
  end.


Definition Step_eqb (a b : Step) : bool := (step_index a =? step_index b)%nat.

(** The calls each step makes. *)
Definition step_commands (s : Step) (c : Command) : bool :=
  match s, c with
  | Create, make_transport _ => true
  | Create, make_interface _ => true
  | Connect, connect_port _ _ _ => true
  | AwaitLink, get_connect_status => true
  | AwaitLink, get_piper_firmware_version => true
  | AwaitLink, get_cached_firmware_version => true
  | CheckStatus, get_arm_status => true
  | CheckStatus, reset_arm => true
  | Enable, enable_arm _ => true
  | Enable, enable_piper => true
  | Home, motion_control_2 _ _ _ _ _ _ => true
  | Home, move_joint _ => true
  | Home, get_arm_status => true
  | _, _ => false
  end.

(** A device call among the events was issued by a step satisfying [p],
    and is one of that step's calls. *)
Definition issued_by (p : Step -> bool) (e : Event) : bool :=
  match e with Called s c => p s && step_commands s c | _ => true end.

Definition is_mode_set (e : Event) : bool :=
  match e with Called _ (motion_control_2 _ _ _ _ _ _) => true | _ => false end.

Definition is_move (e : Event) : bool :=
  match e with Called _ (move_joint _) => true | _ => false end.

Definition is_enable (e : Event) : bool :=
  match e with
  | Called _ (enable_arm _) => true
  | Called _ enable_piper => true
  | _ => false
  end.

Definition is_sleep (ms : Z) (e : Event) : bool :=
  match e with Slept d => d =? ms | _ => false end.

Definition count (p : Event -> bool) (evs : list Event) : nat :=
  List.length (filter p evs).

(** The outcomes each step can produce. *)
Definition outcomes (s : Step) : list InitError :=
  match s with
  | Create => [OK; CAN_OPEN_FAILED]
  | Connect => [OK; CONNECT_FAILED]
  | AwaitLink => [OK; SIGNAL_INTERRUPTED; CONNECT_FAILED]
  | CheckStatus => [OK; ARM_ERROR]
  | Enable => [OK; SIGNAL_INTERRUPTED; ENABLE_TIMEOUT]
  | Home => [OK; SIGNAL_INTERRUPTED; HOME_FAILED]
  end.

Definition InitError_mem (e : InitError) (l : list InitError) : bool :=
  existsb (InitError_eqb e) l.

(** What a part of step [k] that returned [e] has done to the world: it
    added events of that step only, it saw the cancellation flag set
    exactly when [e] is [SIGNAL_INTERRUPTED], [e] is among [allowed], and
    when the flag was seen set nothing but logging followed. *)
Definition part_post (k : Step) (allowed : list InitError)
    (w : World) (e : InitError) (w' : World) : Prop :=
  exists evs,
    grows w w' evs /\
    forallb (issued_by (Step_eqb k)) evs = true /\
    stop_seen evs = InitError_eqb e SIGNAL_INTERRUPTED /\
    InitError_mem e allowed = true /\
    halted evs = InitError_eqb e SIGNAL_INTERRUPTED.

Definition step_post (k : Step) : World -> InitError -> World -> Prop :=
  part_post k (outcomes k).

(** ** Auxiliary notions of the proofs *)

Definition among (l : list Step) (s : Step) : bool := existsb (Step_eqb s) l.

(** The first enable loop either stops on cancellation or hands over its
    counter; the second case reads as [OK] here. *)
Definition fast_result (r : InitError + Z) : InitError :=
  match r with inl e => e | inr _ => OK end.

(** The outcomes of the convergence wait. *)
Definition wait_outcomes : list InitError :=
  [OK; SIGNAL_INTERRUPTED; ARM_ERROR; HOME_TIMEOUT].

(** The index loop of [waitHomingDone] walks both vectors in step; this is
    the same walk by structural recursion. *)
Fixpoint within_tolerance (position target : list Z) : bool :=
  match position, target with
  | p :: ps, t :: ts =>
      if kPositionTolerance <? joint_diff p t then false
      else within_tolerance ps ts
  | _, _ => true
  end.

(** ** The status check *)

(** The world a computation leaves behind. *)
Definition world_after {A : Type} (m : M A) (w : World) : World :=
  match m w with Ret _ w' => w' | _ => w end.

(** The worlds in which [checkArmStatus], started in [w], fetches the arm
    status: the first time, and again after a reset for error [code]. *)
Definition first_fetch (w : World) : World :=
  world_after (info "[4/5] Checking arm status...") w.

Definition second_fetch (dev : Device) (w : World) (code : Z) : World :=
  world_after (reset_and_settle dev code)
    (world_after (call dev CheckStatus get_arm_status (on_get_arm_status dev))
       (first_fetch w)).

(** * A test bench: concrete devices and runs *)

Definition boot : World := {| now := 0; trace := [] |}.

Definition acked : CommandResult := {| ok := true; message := "ok" |}.
Definition refused : CommandResult := {| ok := false; message := "no ack" |}.

Definition link_up : ConnectStatus := {| connected := true; stale := false |}.

(** An arm resting at the zero position, with error code [code]. *)
Definition at_rest (code : Z) : ArmStatus :=
  {| error_code := code; enabled := true; control_mode := 1;
     position_mdeg := [0; 0; 0; 0; 0; 0] |}.

(** A device whose constructors and commands succeed, every call taking
    1 ms; the link, the arm status, the enabled-confirmed check and the
    shutdown flag are given. *)
Definition bench (link : World -> ConnectStatus) (status : World -> option ArmStatus)
    (confirm stop : World -> bool) : Device :=
  {| on_make_transport := fun _ => None;
     on_make_interface := fun _ => None;
     on_connect_port := fun _ => acked;
     on_get_connect_status := link;
     on_get_cached_firmware_version := fun _ => Some "S-V1.6-3";
     on_get_arm_status := status;
     on_enable_arm := fun _ => refused;
     on_enable_piper := confirm;
     on_motion_control_2 := fun _ => acked;
     on_move_joint := fun _ => acked;
     call_duration := fun _ _ => 1;
     g_shutdown_requested := stop |}.

Definition always {A : Type} (a : A) : World -> A := fun _ => a.

Definition moved (w : World) : bool := existsb is_move (trace w).

Definition was_reset (w : World) : bool :=
  existsb (fun e => match e with Called _ reset_arm => true | _ => false end) (trace w).

(** The arm never leaves the zero position. *)
Definition stuck_arm : Device :=
  bench (always link_up) (always (Some (at_rest 0))) (always true) (always false).

(** The arm reports error 3 once it has been told to move. *)
Definition faulting_arm : Device :=
  bench (always link_up)
    (fun w => Some (at_rest (if moved w then 3 else 0)))
    (always true) (always false).


(** The arm reports error 3 whatever happens. *)
Definition broken_arm : Device :=
  bench (always link_up) (always (Some (at_rest 3))) (always true) (always false).

(** The arm reports error 3 until it is reset. *)
Definition recovering_arm : Device :=
  bench (always link_up)
    (fun w => Some (at_rest (if was_reset w then 0 else 3)))
    (always true) (always false).

(** The arm reports error 3 and stops answering once it is reset. *)
Definition silent_after_reset : Device :=
  bench (always link_up)
    (fun w => if was_reset w then None else Some (at_rest 3))
    (always true) (always false).

(** The motors never confirm the enable. *)
Definition unconfirmed : Device :=
  bench (always link_up) (always (Some (at_rest 0))) (always false) (always false).

(** Shutdown is requested once the arm has been told to move. *)
Definition stopped_while_homing : Device :=
  bench (always link_up) (always (Some (at_rest 0))) (always true) moved.

(** The arm is at the target as soon as it has been told to move. *)
Definition homing_arm : Device :=
  bench (always link_up)
    (fun w => Some {| error_code := 0; enabled := true; control_mode := 1;
                      position_mdeg := if moved w then [-90000; 0; 0; 0; 0; 0]
                                       else [0; 0; 0; 0; 0; 0] |})
    (always true) (always false).


(** Shutdown is requested from the start. *)
Definition stopped_at_boot : Device :=
  bench (always link_up) (always (Some (at_rest 0))) (always true) (always true).

(** The motors never confirm, and shutdown is requested once an enable
    call has been made. *)
Definition stopped_on_enable : Device :=
  bench (always link_up) (always (Some (at_rest 0))) (always false)
    (fun w => existsb is_enable (trace w)).

(** The motors never confirm, and shutdown is requested after the 200
    sleeps of the fast loop. *)
Definition stopped_after_fast_loop : Device :=
  bench (always link_up) (always (Some (at_rest 0))) (always false)
    (fun w => (200 <=? count (is_sleep 10) (trace w))%nat).

(** Shutdown is requested once the motors are enabled. *)
Definition stopped_before_homing : Device :=
  bench (always link_up) (always (Some (at_rest 0))) (always true)
    (fun w => existsb is_enable (trace w)).

(** The arm reports no joint positions at all. *)
Definition mute_joints : Device :=
  bench (always link_up)
    (always (Some {| error_code := 0; enabled := true; control_mode := 1;
                     position_mdeg := [] |}))
    (always true) (always false).

(** [main]'s configuration with short timeouts. *)
Definition quick_config : Config := {|
  can_interface := "can0";
  connect_timeout := 200;
  enable_timeout := 300;
  home_timeout := 400;
  status_poll_interval := 50;
  home_retry_count := 2;
  motion_speed_percent := 30;
  target_joints := [-90000; 0; 0; 0; 0; 0]
|}.

(** The outcome of a computation and the number of events satisfying [p]
    in the history it leaves. *)
Definition observe (p : Event -> bool) (r : Res InitError) : option (InitError * nat) :=
  match r with
  | Ret e w' => Some (e, count p (trace w'))
  | _ => None
  end.

(** The outcome of a computation and the loops whose read of the flag
    saw it set. *)
Definition stopping_loops (r : Res InitError) : option (InitError * list Loop) :=
  match r with
  | Ret e w' =>
      Some (e, flat_map (fun ev => match ev with
                                   | ShutdownRead l true => [l]
                                   | _ => []
                                   end) (trace w'))
  | _ => None
  end.

Definition is_arm_error_log (e : Event) : bool :=
  match e with
  | Logged ERROR msg => String.eqb msg "Arm error: 3"
  | _ => false
  end.

Definition is_wait_timeout_log (e : Event) : bool :=
  match e with
  | Logged ERROR msg => String.eqb msg "Move to target timeout"
  | _ => false
  end.

(** The world in which step [k] starts when the steps before it return
    [OK], from [boot]. *)
Definition arrival (cfg : Config) (dev : Device) (fuel : nat) (k : Step) : World :=
  match all_ok cfg dev fuel (steps_before k) (started cfg boot) with
  | Some w => w
  | None => boot
  end.


Definition homed_world : World :=
  Eval vm_compute in world_after (run quick_config homing_arm 20) boot.

(** ** Further readings of the history *)

Definition is_call (e : Event) : bool :=
  match e with Called _ _ => true | _ => false end.

Definition is_flag_read (e : Event) : bool :=
  match e with ShutdownRead _ _ => true | _ => false end.

Definition is_any_sleep (e : Event) : bool :=
  match e with Slept _ => true | _ => false end.

Definition is_link_poll (e : Event) : bool :=
  match e with Called _ get_connect_status => true | _ => false end.

Definition is_status_poll (e : Event) : bool :=
  match e with Called _ get_arm_status => true | _ => false end.

Definition is_confirm_poll (e : Event) : bool :=
  match e with Called _ enable_piper => true | _ => false end.

Definition is_enable_command (e : Event) : bool :=
  match e with Called _ (enable_arm _) => true | _ => false end.

Definition is_reset (e : Event) : bool :=
  match e with Called _ reset_arm => true | _ => false end.

Definition is_make_interface (e : Event) : bool :=
  match e with Called _ (make_interface _) => true | _ => false end.

(** [v] is one of the worlds the program passed through on its way from
    [w] to [w']. *)
Definition between (w v w' : World) : Prop :=
  exists evs1 evs2, grows w v evs1 /\ grows v w' evs2.

(** The program gets from [w] to [w']. *)
Definition reaches (w w' : World) : Prop := exists evs, grows w w' evs.


(** In the run that starts in [w] and ends in [w'] with [e], the steps
    before [k] returned [OK] and step [k] returned [e]. *)
Definition failed_at (cfg : Config) (dev : Device) (fuel : nat) (w : World)
    (e : InitError) (w' : World) (k : Step) : Prop :=
  exists wk,
    all_ok cfg dev fuel (steps_before k) (started cfg w) = Some wk /\
    step_fn cfg dev fuel k wk = Ret e w'.

(** ** More of the test bench *)




(** Every mode-set command is refused. *)
Definition deaf_arm : Device :=
  {| on_make_transport := fun _ => None;
     on_make_interface := fun _ => None;
     on_connect_port := fun _ => acked;
     on_get_connect_status := always link_up;
     on_get_cached_firmware_version := fun _ => None;
     on_get_arm_status := always (Some (at_rest 0));
     on_enable_arm := fun _ => acked;
     on_enable_piper := always true;
     on_motion_control_2 := fun _ => refused;
     on_move_joint := fun _ => acked;
     call_duration := fun _ _ => 2;
     g_shutdown_requested := always false |}.




Definition enabled_world : World :=
  Eval vm_compute in world_after (enableMotors quick_config homing_arm 20) boot.


Definition homing_failed_world : World :=
  Eval vm_compute in world_after (performHoming quick_config stuck_arm 20) boot.


Definition arm_error_world : World :=
  Eval vm_compute in world_after (run quick_config broken_arm 20) boot.

Definition main_done_world : World :=
  Eval vm_compute in world_after (main homing_arm 20) boot.

(** * Proofs *)

Arguments extend : simpl never.
Arguments to_string : simpl never.
Arguments String.append : simpl never.

Lemma bind_run {A B : Type} (m : M A) (f : A -> M B) (w : World) :
  bind m f w =
  match m w with
  | Ret a w' => f a w'
  | Undefined => Undefined
  | OutOfFuel => OutOfFuel
  end.
Proof. reflexivity. Qed.

Lemma run_as_steps cfg dev fuel w :
  run cfg dev fuel w = run_steps cfg dev fuel all_steps (started cfg w).
Proof. reflexivity. Qed.

Lemma InitError_eqb_eq a b : InitError_eqb a b = true <-> a = b.
Proof.
  unfold InitError_eqb. rewrite Z.eqb_eq.
  split; [ | intros ->; reflexivity ].
  destruct a, b; simpl; intros H; try reflexivity; discriminate H.
Qed.

Lemma now_extend dt e w : now (extend dt e w) = now w + Z.max 0 dt.
Proof. reflexivity. Qed.



Lemma grows_now w w' evs : grows w w' evs -> now w <= now w'.
Proof.
  induction 1 as [ | dt e w1 evs _ IH ]; [ lia | ].
  rewrite now_extend. lia.
Qed.

Lemma grows_trans w w1 w2 evs1 evs2 :
  grows w w1 evs1 -> grows w1 w2 evs2 -> grows w w2 (evs2 ++ evs1).
Proof.
  intros H1 H2. induction H2 as [ | dt e w3 evs _ IH ]; [ exact H1 | ].
  simpl. constructor. exact IH.
Qed.

Lemma stop_seen_app a b : stop_seen (a ++ b) = stop_seen a || stop_seen b.
Proof. apply existsb_app. Qed.

Lemma count_app p a b : (count p (a ++ b) = count p a + count p b)%nat.
Proof. unfold count. rewrite filter_app, length_app. reflexivity. Qed.

Lemma count_cons p e l :
  count p (e :: l) = ((if p e then 1 else 0) + count p l)%nat.
Proof. unfold count. simpl. destruct (p e); reflexivity. Qed.

Lemma count_nil p : count p [] = 0%nat.
Proof. reflexivity. Qed.

Ltac count_norm :=
  repeat first [ rewrite count_app | rewrite count_cons | rewrite count_nil ];
  cbn [is_mode_set is_move is_enable is_sleep Z.eqb Pos.eqb].

(** Symbolic execution of a computation whose result is known. *)
Ltac reduce_in H :=
  cbn [bind ret Monad_M mbind mret info warn error log sleep_for skip
       steady_clock_now call shutdown_check deref] in H;
  unfold mbind, mret in H;
  cbn [info warn error log sleep_for skip steady_clock_now call
       shutdown_check deref] in H.

Ltac run_known H :=
  reduce_in H;
  repeat
    (match type of H with
     | Ret _ _ = Ret _ _ => fail 1
     | context [match ?c with _ => _ end] =>
         lazymatch c with
         | context [match _ with _ => _ end] => fail
         | _ => let E := fresh "E" in destruct c eqn:E
         end
     end;
     reduce_in H);
  try discriminate H.

Ltac grown := repeat first [ apply grows_refl | apply grows_step ].

Ltac post_leaf :=
  eexists; split; [ grown | repeat split; reflexivity ].

Lemma createInterface_post cfg dev w e w' :
  createInterface cfg dev w = Ret e w' -> step_post Create w e w'.
Proof.
  unfold createInterface. intros H. run_known H;
    injection H as <- <-; post_leaf.
Qed.

Lemma connectPort_post dev w e w' :
  connectPort dev w = Ret e w' -> step_post Connect w e w'.
Proof.
  unfold connectPort. intros H. run_known H;
    injection H as <- <-; post_leaf.
Qed.

Lemma halted_stop_seen evs : halted evs = true -> stop_seen evs = true.
Proof.
  induction evs as [ | [ s c | ms | l [ | ] | lvl msg ] evs IH ]; simpl; intros H;
    try discriminate H; auto.
Qed.

(** Older events without an observed stop do not change [halted]. *)
Lemma halted_app a b : stop_seen b = false -> halted (a ++ b) = halted a.
Proof.
  intros S. induction a as [ | [ s c | ms | l [ | ] | lvl msg ] a IH ]; simpl;
    try reflexivity; try exact IH.
  destruct (halted b) eqn:H; [ | reflexivity ].
  apply halted_stop_seen in H. congruence.
Qed.


Lemma forallb_issued_app p a b :
  forallb (issued_by p) (a ++ b) = forallb (issued_by p) a && forallb (issued_by p) b.
Proof. apply forallb_app. Qed.

(** A post-condition survives a prefix of quiet events of the same step. *)
Lemma part_post_after k allowed w w1 e w' evs :
  grows w w1 evs ->
  forallb (issued_by (Step_eqb k)) evs = true ->
  stop_seen evs = false ->
  part_post k allowed w1 e w' -> part_post k allowed w e w'.
Proof.
  intros G F S (evs' & G' & F' & S' & O & H').
  exists (evs' ++ evs). split; [ eapply grows_trans; eassumption | ].
  rewrite forallb_issued_app, stop_seen_app, F, F', S, S', orb_false_r.
  rewrite (halted_app _ _ S).
  repeat split; assumption.
Qed.

Ltac post_rec IH H :=
  apply IH in H;
  eapply part_post_after; [ | | | exact H ]; [ grown | reflexivity | reflexivity ].

Lemma waitForConnection_loop_post cfg dev n : forall deadline w e w',
  waitForConnection_loop cfg dev n deadline w = Ret e w' -> step_post AwaitLink w e w'.
Proof.
  induction n as [ | n IH ]; intros deadline w e w' H; [ discriminate H | ].
  cbn [waitForConnection_loop] in H. run_known H;
    first [ injection H as <- <-; post_leaf | post_rec IH H ].
Qed.

Lemma waitForConnection_post cfg dev fuel w e w' :
  waitForConnection cfg dev fuel w = Ret e w' -> step_post AwaitLink w e w'.
Proof.
  unfold waitForConnection. intros H. run_known H.
  post_rec (waitForConnection_loop_post cfg dev fuel) H.
Qed.

Lemma checkArmStatus_post dev w e w' :
  checkArmStatus dev w = Ret e w' -> step_post CheckStatus w e w'.
Proof.
  unfold checkArmStatus, report_status, reset_and_settle. intros H. run_known H;
    injection H as <- <-; post_leaf.
Qed.

Lemma enable_fast_loop_post dev n : forall retry_count w r w',
  enable_fast_loop dev n retry_count w = Ret r w' ->
  step_post Enable w (fast_result r) w' /\
  (forall e, r = inl e -> e = SIGNAL_INTERRUPTED).
Proof.
  induction n as [ | n IH ]; intros retry_count w r w' H; [ discriminate H | ].
  cbn [enable_fast_loop] in H. run_known H.
  - injection H as <- <-. split; [ post_leaf | intros e [= <-]; reflexivity ].
  - destruct (IH _ _ _ _ H) as [P Q]. split; [ | exact Q ].
    eapply part_post_after; [ | | | exact P ]; [ grown | reflexivity | reflexivity ].
  - injection H as <- <-. split; [ post_leaf | intros e [=] ].
Qed.

Lemma enable_long_loop_post cfg dev n : forall deadline w e w',
  enable_long_loop cfg dev n deadline w = Ret e w' -> step_post Enable w e w'.
Proof.
  induction n as [ | n IH ]; intros deadline w e w' H; [ discriminate H | ].
  cbn [enable_long_loop] in H. run_known H;
    first [ injection H as <- <-; post_leaf | post_rec IH H ].
Qed.

Lemma enableMotors_post cfg dev fuel w e w' :
  enableMotors cfg dev fuel w = Ret e w' -> step_post Enable w e w'.
Proof.
  unfold enableMotors, send_enable. intros H.
  rewrite bind_run in H.
  match type of H with
  | match ?m with _ => _ end = _ => destruct m as [ [] w0 | | ] eqn:E0
  end; try discriminate H.
  assert (P0 : exists evs, grows w w0 evs /\
            forallb (issued_by (Step_eqb Enable)) evs = true /\ stop_seen evs = false).
  { run_known E0; injection E0 as <-; eexists; (split; [ grown | split; reflexivity ]). }
  destruct P0 as (evs0 & G0 & F0 & S0).
  rewrite bind_run in H.
  destruct (enable_fast_loop dev (S (Z.to_nat MAX_RETRIES)) 0 w0) as [ r w1 | | ] eqn:E1;
    try discriminate H.
  destruct (enable_fast_loop_post _ _ _ _ _ _ E1) as [P1 Q1].
  eapply part_post_after; [ exact G0 | exact F0 | exact S0 | ].
  destruct r as [ e1 | retry_count ]; unfold enable_escalate in H.
  - injection H as <- <-. exact P1.
  - destruct P1 as (evs1 & G1 & F1 & S1 & _).
    eapply part_post_after; [ exact G1 | exact F1 | exact S1 | ].
    run_known H.
    + eapply enable_long_loop_post. exact H.
    + injection H as <- <-. post_leaf.
Qed.

Lemma homing_poll_post cfg dev w r w' :
  homing_poll cfg dev w = Ret r w' ->
  exists evs,
    grows w w' evs /\
    forallb (issued_by (Step_eqb Home)) evs = true /\
    stop_seen evs = false /\
    count is_mode_set evs = 0%nat /\ count is_move evs = 0%nat /\
    (r = None \/ r = Some OK \/ r = Some ARM_ERROR).
Proof.
  unfold homing_poll. intros H. run_known H; injection H as <- <-;
    (eexists; split; [ grown | repeat split; auto ]).
Qed.

Lemma waitHomingDone_loop_post cfg dev n : forall deadline w e w',
  waitHomingDone_loop cfg dev n deadline w = Ret e w' ->
  part_post Home wait_outcomes w e w'.
Proof.
  induction n as [ | n IH ]; intros deadline w e w' H; [ discriminate H | ].
  cbn [waitHomingDone_loop] in H. run_known H.
  all: try (injection H as <- <-; post_leaf).
  all: destruct (homing_poll_post _ _ _ _ _ E1) as (evs & G & F & S & _ & _ & R);
    eapply part_post_after with (w1 := extend 0 (ShutdownRead HomeWaitLoop false) w);
    [ grown | reflexivity | reflexivity | ];
    eapply part_post_after; [ exact G | exact F | exact S | ].
  - injection H as <- <-.
    destruct R as [ R | [ [= ->] | [= ->] ] ]; [ discriminate R | post_leaf | post_leaf ].
  - post_rec IH H.
Qed.

Lemma waitHomingDone_post cfg dev fuel w e w' :
  waitHomingDone cfg dev fuel w = Ret e w' -> part_post Home wait_outcomes w e w'.
Proof.
  unfold waitHomingDone. intros H. run_known H.
  eapply waitHomingDone_loop_post. exact H.
Qed.

Lemma homing_loop_post cfg dev fuel n : forall retry w e w',
  homing_loop cfg dev fuel n retry w = Ret e w' -> step_post Home w e w'.
Proof.
  induction n as [ | n IH ]; intros retry w e w' H;
    cbn [homing_loop] in H; run_known H.
  all: try (injection H as <- <-; post_leaf).
  all: try (post_rec IH H).
  all: unfold step_post in *;
    match goal with
    | W : waitHomingDone _ _ _ ?wm = Ret ?a ?w2 |- _ =>
        destruct (waitHomingDone_post _ _ _ _ _ _ W) as (evs & G & F & S & _ & Hh);
        eapply part_post_after with (w1 := wm);
        [ grown | reflexivity | reflexivity | ]
    end.
  all: match goal with
       | Q : InitError_eqb ?a _ = true |- _ =>
           apply InitError_eqb_eq in Q; subst a; injection H as <- <-;
           exists evs; repeat split; assumption
       | Q : InitError_eqb ?a SIGNAL_INTERRUPTED = false |- _ =>
           rewrite Q in S;
           eapply part_post_after; [ exact G | exact F | exact S | ];
           post_rec IH H
       end.
Qed.

Lemma performHoming_post cfg dev fuel w e w' :
  performHoming cfg dev fuel w = Ret e w' -> step_post Home w e w'.
Proof.
  unfold performHoming. intros H. run_known H.
  post_rec (homing_loop_post cfg dev fuel (Z.to_nat (home_retry_count cfg))) H.
Qed.

(** Every step keeps to its own calls and outcomes, and reports
    [SIGNAL_INTERRUPTED] exactly when it saw the flag set. *)
Lemma step_fn_post cfg dev fuel k w e w' :
  step_fn cfg dev fuel k w = Ret e w' -> step_post k w e w'.
Proof.
  destruct k; simpl; intros H.
  - eapply createInterface_post; eassumption.
  - eapply connectPort_post; eassumption.
  - eapply waitForConnection_post; eassumption.
  - eapply checkArmStatus_post; eassumption.
  - eapply enableMotors_post; eassumption.
  - eapply performHoming_post; eassumption.
Qed.

(** ** The sequence *)

Lemma issued_by_weaken (p q : Step -> bool) evs :
  (forall s, p s = true -> q s = true) ->
  forallb (issued_by p) evs = true -> forallb (issued_by q) evs = true.
Proof.
  intros I. rewrite !forallb_forall. intros F ev Hin.
  specialize (F ev Hin). destruct ev; simpl in *; auto.
  apply andb_true_iff in F. destruct F as [F1 F2].
  rewrite (I _ F1), F2. reflexivity.
Qed.

Lemma issued_by_In p evs s c :
  forallb (issued_by p) evs = true -> In (Called s c) evs ->
  p s = true /\ step_commands s c = true.
Proof.
  rewrite forallb_forall. intros F Hin.
  specialize (F _ Hin). simpl in F. apply andb_true_iff in F. exact F.
Qed.

Lemma count_none p evs :
  (forall e, In e evs -> p e = false) -> count p evs = 0%nat.
Proof.
  induction evs as [ | e evs IH ]; intros H; [ reflexivity | ].
  rewrite count_cons, (H e) by (left; reflexivity).
  apply IH. intros e' Hin. apply H. right. exact Hin.
Qed.

Lemma Step_eqb_eq a b : Step_eqb a b = true <-> a = b.
Proof.
  unfold Step_eqb. rewrite Nat.eqb_eq.
  split; [ | intros ->; reflexivity ].
  destruct a, b; simpl; intros H; try reflexivity; discriminate H.
Qed.

Lemma among_In l s : among l s = true <-> In s l.
Proof.
  unfold among. rewrite existsb_exists. split.
  - intros (x & Hin & E). apply Step_eqb_eq in E. subst. exact Hin.
  - intros Hin. exists s. split; [ exact Hin | apply Step_eqb_eq; reflexivity ].
Qed.

Lemma issued_by_step_among k l evs :
  In k l ->
  forallb (issued_by (Step_eqb k)) evs = true ->
  forallb (issued_by (among l)) evs = true.
Proof.
  intros Hin. apply issued_by_weaken. intros s E.
  apply Step_eqb_eq in E. subst s. apply among_In. exact Hin.
Qed.

Lemma issued_by_among_incl l l' evs :
  incl l l' ->
  forallb (issued_by (among l)) evs = true ->
  forallb (issued_by (among l')) evs = true.
Proof.
  intros I. apply issued_by_weaken. intros s E.
  apply among_In. apply I. apply among_In. exact E.
Qed.

(** Steps that all return [OK] leave only their own calls behind and never
    saw the cancellation flag set. *)
Lemma all_ok_grows cfg dev fuel l : forall w wk,
  all_ok cfg dev fuel l w = Some wk ->
  exists evs,
    grows w wk evs /\
    forallb (issued_by (among l)) evs = true /\
    stop_seen evs = false.
Proof.
  induction l as [ | s l IH ]; simpl; intros w wk H.
  - injection H as <-. exists []. repeat split. constructor.
  - destruct (step_fn cfg dev fuel s w) as [ e w1 | | ] eqn:E; try discriminate H.
    destruct e; try discriminate H.
    destruct (step_fn_post _ _ _ _ _ _ _ E) as (evs1 & G1 & F1 & S1 & _).
    destruct (IH _ _ H) as (evs2 & G2 & F2 & S2).
    exists (evs2 ++ evs1). split; [ eapply grows_trans; eassumption | ].
    rewrite forallb_issued_app, stop_seen_app, S1, S2. split; [ | reflexivity ].
    apply andb_true_intro. split.
    + eapply issued_by_among_incl; [ | exact F2 ]. apply incl_tl, incl_refl.
    + eapply issued_by_step_among; [ | exact F1 ]. left. reflexivity.
Qed.

(** Steps that returned [OK] drop out of the chain. *)
Lemma run_steps_skip cfg dev fuel l1 l2 : forall w wk,
  all_ok cfg dev fuel l1 w = Some wk ->
  run_steps cfg dev fuel (l1 ++ l2) w = run_steps cfg dev fuel l2 wk.
Proof.
  induction l1 as [ | s l1 IH ]; simpl; intros w wk H.
  - injection H as <-. reflexivity.
  - rewrite bind_run.
    destruct (step_fn cfg dev fuel s w) as [ e w1 | | ] eqn:E; try discriminate H.
    destruct e; try discriminate H. simpl. apply IH. exact H.
Qed.

(** A step that does not return [OK] ends the chain with its outcome. *)
Lemma run_steps_fail cfg dev fuel k l w e w' :
  step_fn cfg dev fuel k w = Ret e w' -> e <> OK ->
  run_steps cfg dev fuel (k :: l) w = Ret e w'.
Proof.
  intros H Hne. simpl. rewrite bind_run, H.
  destruct (InitError_eqb e OK) eqn:E; [ | reflexivity ].
  apply InitError_eqb_eq in E. contradiction.
Qed.

(** What any run of the chain leaves behind. *)
Lemma run_steps_post cfg dev fuel l : forall w e w',
  run_steps cfg dev fuel l w = Ret e w' ->
  exists evs,
    grows w w' evs /\
    forallb (issued_by (among l)) evs = true /\
    stop_seen evs = InitError_eqb e SIGNAL_INTERRUPTED /\
    (e = OK \/ exists k, In k l /\ InitError_mem e (outcomes k) = true) /\
    halted evs = InitError_eqb e SIGNAL_INTERRUPTED.
Proof.
  induction l as [ | s l IH ]; intros w e w' H.
  - simpl in H. run_known H. injection H as <- <-.
    eexists. split; [ grown | repeat split; auto ].
  - simpl in H. rewrite bind_run in H.
    destruct (step_fn cfg dev fuel s w) as [ e1 w1 | | ] eqn:E; try discriminate H.
    destruct (step_fn_post _ _ _ _ _ _ _ E) as (evs1 & G1 & F1 & S1 & O1 & H1).
    destruct (InitError_eqb e1 OK) eqn:Q; simpl in H.
    + apply InitError_eqb_eq in Q. subst e1. simpl in S1.
      destruct (IH _ _ _ H) as (evs2 & G2 & F2 & S2 & O2 & H2).
      exists (evs2 ++ evs1). split; [ eapply grows_trans; eassumption | ].
      rewrite forallb_issued_app, stop_seen_app, (halted_app _ _ S1), S1, S2, orb_false_r.
      repeat split; try exact H2.
      * apply andb_true_intro. split.
        -- eapply issued_by_among_incl; [ | exact F2 ]. apply incl_tl, incl_refl.
        -- eapply issued_by_step_among; [ | exact F1 ]. left. reflexivity.
      * destruct O2 as [ -> | (k & Hin & O2) ]; [ left; reflexivity | ].
        right. exists k. split; [ right; exact Hin | exact O2 ].
    + injection H as <- <-. exists evs1. repeat split; try assumption.
      * eapply issued_by_step_among; [ | exact F1 ]. left. reflexivity.
      * right. exists s. split; [ left; reflexivity | exact O1 ].
Qed.

Lemma grows_started cfg w : grows w (started cfg w) [Logged INFO ("Piper arm init started, CAN: " +++ can_interface cfg)].
Proof. unfold started. grown. Qed.


Lemma run_post cfg dev fuel w e w' :
  run cfg dev fuel w = Ret e w' ->
  exists evs,
    grows w w' evs /\
    stop_seen evs = InitError_eqb e SIGNAL_INTERRUPTED /\
    (e = OK \/ exists k, InitError_mem e (outcomes k) = true) /\
    halted evs = InitError_eqb e SIGNAL_INTERRUPTED.
Proof.
  rewrite run_as_steps. intros H.
  destruct (run_steps_post _ _ _ _ _ _ _ H) as (evs & G & _ & S & O & Hh).
  eexists. split; [ eapply grows_trans; [ apply grows_started | exact G ] | ].
  rewrite stop_seen_app, halted_app, S by reflexivity.
  simpl. rewrite orb_false_r. split; [ reflexivity | ].
  split; [ | exact Hh ].
  destruct O as [ -> | (k & _ & O) ]; [ left; reflexivity | right; exists k; exact O ].
Qed.

(** ** Deadline loops that run to their deadline *)

Ltac reduce_goal :=
  cbn [bind ret Monad_M mbind mret info warn error log sleep_for skip
       steady_clock_now call shutdown_check deref];
  unfold mbind, mret;
  cbn [info warn error log sleep_for skip steady_clock_now call
       shutdown_check deref].

Section Polling.

Variable cfg : Config.
Variable dev : Device.

(** The poll interval is a positive number of milliseconds and nobody
    asks for shutdown. *)
Hypothesis poll_positive : 0 < status_poll_interval cfg.
Hypothesis no_shutdown : forall w, g_shutdown_requested dev w = false.




Lemma homing_poll_total w : exists r w', homing_poll cfg dev w = Ret r w'.
Proof.
  unfold homing_poll. reduce_goal.
  destruct (on_get_arm_status dev w) as [ st | ]; [ | eauto ].
  destruct (negb (error_code st =? 0)); [ eauto | ].
  destruct (all_at_target _ _); eauto.
Qed.

(** Convergence is never reported: every snapshot without an error code
    has some joint out of tolerance. *)
Hypothesis never_at_target :
  forall w st,
    on_get_arm_status dev w = Some st -> error_code st = 0 ->
    all_at_target (position_mdeg st) (target_joints cfg) = false.

Lemma homing_poll_not_ok w w' : homing_poll cfg dev w <> Ret (Some OK) w'.
Proof.
  unfold homing_poll. reduce_goal.
  destruct (on_get_arm_status dev w) as [ st | ] eqn:E; [ | discriminate ].
  destruct (Z.eqb_spec (error_code st) 0) as [ Z0 | NZ ]; cbn [negb];
    [ | discriminate ].
  rewrite (never_at_target _ _ E Z0). discriminate.
Qed.

Lemma waitHomingDone_loop_fails :
  forall n deadline w,
    (Z.to_nat (deadline - now w) < n)%nat ->
    exists e w' evs,
      waitHomingDone_loop cfg dev n deadline w = Ret e w' /\
      (e = ARM_ERROR \/ e = HOME_TIMEOUT) /\
      grows w w' evs /\
      count is_mode_set evs = 0%nat /\ count is_move evs = 0%nat.
Proof.
  induction n as [ | n IH ]; intros deadline w Hn; [ lia | ].
  cbn [waitHomingDone_loop]. reduce_goal.
  destruct (Z.ltb_spec (now w) deadline) as [ Hlt | Hge ].
  - rewrite no_shutdown.
    destruct (homing_poll_total (extend 0 (ShutdownRead HomeWaitLoop false) w))
      as (r & w1 & P).
    rewrite P.
    destruct (homing_poll_post _ _ _ _ _ P) as (evs1 & G1 & _ & _ & M1 & V1 & R).
    destruct R as [ -> | [ -> | -> ] ].
    + reduce_goal.
      edestruct (IH deadline) as (e & w' & evs & E & O & G & M & V);
        [ | rewrite E; exists e, w'; eexists; split; [ reflexivity | ];
            split; [ exact O | ]; split;
            [ eapply grows_trans; [ | exact G ];
              eapply grows_step; eapply grows_trans; [ | exact G1 ]; grown | ];
            count_norm; rewrite M, V, M1, V1; split; reflexivity ].
      apply grows_now in G1. rewrite !now_extend in *. lia.
    + exfalso. eapply homing_poll_not_ok. exact P.
    + exists ARM_ERROR, w1. eexists. split; [ reflexivity | ].
      split; [ left; reflexivity | ]. split;
        [ eapply grows_trans; [ | exact G1 ]; grown | ].
      count_norm. rewrite M1, V1. split; reflexivity.
  - eexists _, _, _. split; [ reflexivity | ].
    split; [ right; reflexivity | ]. split; [ grown | split; reflexivity ].
Qed.

End Polling.

(** ** Homing attempts that never converge *)

Section FailedHoming.

Variable cfg : Config.
Variable dev : Device.
Variable fuel : nat.

Hypothesis poll_positive : 0 < status_poll_interval cfg.
Hypothesis no_shutdown : forall w, g_shutdown_requested dev w = false.
Hypothesis mode_set_acked : forall w, ok (on_motion_control_2 dev w) = true.
Hypothesis move_acked : forall w, ok (on_move_joint dev w) = true.
Hypothesis never_at_target :
  forall w st,
    on_get_arm_status dev w = Some st -> error_code st = 0 ->
    all_at_target (position_mdeg st) (target_joints cfg) = false.
Hypothesis enough_fuel : (Z.to_nat (home_timeout cfg) < fuel)%nat.

Lemma waitHomingDone_fails w :
  exists e w' evs,
    waitHomingDone cfg dev fuel w = Ret e w' /\
    (e = ARM_ERROR \/ e = HOME_TIMEOUT) /\
    grows w w' evs /\
    count is_mode_set evs = 0%nat /\ count is_move evs = 0%nat.
Proof.
  unfold waitHomingDone. reduce_goal.
  apply waitHomingDone_loop_fails; try assumption.
  replace (now w + home_timeout cfg - now w) with (home_timeout cfg) by lia.
  exact enough_fuel.
Qed.

(** The [for] loop runs out: one mode-set and one move per iteration. *)
Lemma homing_loop_exhausts :
  forall n retry w,
    n = Z.to_nat (home_retry_count cfg - retry) ->
    exists w' evs,
      homing_loop cfg dev fuel n retry w = Ret HOME_FAILED w' /\
      grows w w' evs /\
      count is_mode_set evs = n /\ count is_move evs = n.
Proof.
  induction n as [ | n IH ]; intros retry w Hn; cbn [homing_loop].
  - destruct (Z.ltb_spec retry (home_retry_count cfg)) as [ Hlt | Hge ]; [ lia | ].
    reduce_goal. eexists _, _. split; [ reflexivity | ].
    split; [ grown | split; reflexivity ].
  - destruct (Z.ltb_spec retry (home_retry_count cfg)) as [ Hlt | Hge ]; [ | lia ].
    reduce_goal. rewrite no_shutdown.
    destruct (0 <? retry); reduce_goal;
      rewrite mode_set_acked; cbn [negb];
      rewrite move_acked; cbn [negb];
      match goal with
      | |- context [waitHomingDone cfg dev fuel ?wm] =>
          destruct (waitHomingDone_fails wm) as (e & w1 & evs1 & E & O & G1 & M1 & V1);
          rewrite E;
          destruct (IH (retry + 1) w1) as (w' & evs & E' & G & M & V); [ lia | ];
          exists w'; eexists; split; [ destruct O as [ -> | -> ]; exact E' | ];
          split; [ eapply grows_trans; [ | exact G ];
                   eapply grows_trans; [ | exact G1 ]; grown | ];
          count_norm; rewrite M, V, M1, V1; split; lia
      end.
Qed.

Lemma performHoming_exhausts w :
  exists w' evs,
    performHoming cfg dev fuel w = Ret HOME_FAILED w' /\
    grows w w' evs /\
    count is_mode_set evs = Z.to_nat (home_retry_count cfg) /\
    count is_move evs = Z.to_nat (home_retry_count cfg).
Proof.
  unfold performHoming. reduce_goal.
  edestruct (homing_loop_exhausts (Z.to_nat (home_retry_count cfg)) 0)
    as (w' & evs & E & G & M & V);
    [ rewrite Z.sub_0_r; reflexivity | ].
  rewrite E. exists w'. eexists. split; [ reflexivity | ].
  split; [ eapply grows_trans; [ | exact G ]; grown | ].
  count_norm. rewrite M, V. split; lia.
Qed.

End FailedHoming.

(** ** The tolerance check *)

Lemma skipn_nth_error_Some {A : Type} (l : list A) : forall i x,
  nth_error l i = Some x -> skipn i l = x :: skipn (S i) l.
Proof.
  induction l as [ | a l IH ]; intros [ | i ] x H; simpl in *;
    try discriminate H.
  - injection H as ->. reflexivity.
  - apply IH. exact H.
Qed.

Lemma skipn_nth_error_None {A : Type} (l : list A) i :
  nth_error l i = None -> skipn i l = [].
Proof. intros H. apply skipn_all2. apply nth_error_None. exact H. Qed.

Lemma all_at_target_from_skipn n : forall i position target,
  (List.length position <= i + n)%nat ->
  all_at_target_from n i position target
  = within_tolerance (skipn i position) (skipn i target).
Proof.
  induction n as [ | n IH ]; intros i position target Hlen.
  - rewrite skipn_all2 by lia. reflexivity.
  - cbn [all_at_target_from].
    destruct (nth_error position i) as [ p | ] eqn:Ep.
    + rewrite (skipn_nth_error_Some _ _ _ Ep).
      destruct (nth_error target i) as [ t | ] eqn:Et.
      * rewrite (skipn_nth_error_Some _ _ _ Et). cbn [within_tolerance].
        destruct (kPositionTolerance <? joint_diff p t); [ reflexivity | ].
        apply IH. lia.
      * rewrite (skipn_nth_error_None _ _ Et). reflexivity.
    + rewrite (skipn_nth_error_None _ _ Ep). reflexivity.
Qed.

Lemma all_at_target_structural position target :
  all_at_target position target = within_tolerance position target.
Proof.
  unfold all_at_target. rewrite all_at_target_from_skipn by lia. reflexivity.
Qed.




(** ** The run around one step *)

Lemma all_steps_split k : all_steps = steps_before k ++ k :: steps_after k.
Proof. destruct k; reflexivity. Qed.

Lemma steps_before_index k s :
  among (steps_before k) s = true -> (step_index s < step_index k)%nat.
Proof. destruct k, s; simpl; intros H; try discriminate H; lia. Qed.

(** The general half of C6: a step that fails ends the run there. *)
Lemma run_stops_at_failure cfg dev fuel w k wk e w' :
  all_ok cfg dev fuel (steps_before k) (started cfg w) = Some wk ->
  step_fn cfg dev fuel k wk = Ret e w' ->
  e <> OK ->
  run cfg dev fuel w = Ret e w' /\
  exists evs,
    grows w w' evs /\
    forall s c, In (Called s c) evs ->
      (step_index s <= step_index k)%nat /\ step_commands s c = true.
Proof.
  intros Hbefore Hk Hne. split.
  - rewrite run_as_steps, (all_steps_split k).
    rewrite (run_steps_skip _ _ _ _ _ _ _ Hbefore).
    apply run_steps_fail; assumption.
  - destruct (all_ok_grows _ _ _ _ _ _ Hbefore) as (evs1 & G1 & F1 & _).
    destruct (step_fn_post _ _ _ _ _ _ _ Hk) as (evs2 & G2 & F2 & _).
    eexists. split.
    + eapply grows_trans; [ | exact G2 ].
      eapply grows_trans; [ apply grows_started | exact G1 ].
    + intros s c Hin. apply in_app_or in Hin. destruct Hin as [ Hin | Hin ].
      * destruct (issued_by_In _ _ _ _ F2 Hin) as [ Q C ].
        apply Step_eqb_eq in Q. subst s. split; [ lia | exact C ].
      * apply in_app_or in Hin. destruct Hin as [ Hin | [ Hin | [] ] ];
          [ | discriminate Hin ].
        destruct (issued_by_In _ _ _ _ F1 Hin) as [ Q C ].
        apply steps_before_index in Q. split; [ lia | exact C ].
Qed.

(** Calls issued up to the status check are no enable calls, and calls
    issued up to the enable step are no motion calls. *)
Lemma no_enable_before evs k :
  (step_index k < step_index Enable)%nat ->
  (forall s c, In (Called s c) evs ->
      (step_index s <= step_index k)%nat /\ step_commands s c = true) ->
  count is_enable evs = 0%nat.
Proof.
  intros Hk H.
  apply count_none; intros [ s c | | | ] Hin; try reflexivity;
    destruct (H s c Hin) as [ Hle C ];
    destruct k; simpl in Hk; try lia;
    destruct s; simpl in Hle; try lia;
    destruct c; simpl in C; try discriminate C; reflexivity.
Qed.



Lemma run_continues cfg dev fuel w0 k w w1 :
  all_ok cfg dev fuel (steps_before k) (started cfg w0) = Some w ->
  step_fn cfg dev fuel k w = Ret OK w1 ->
  run cfg dev fuel w0 = run_steps cfg dev fuel (steps_after k) w1.
Proof.
  intros Hbefore Hk.
  rewrite run_as_steps, (all_steps_split k).
  rewrite (run_steps_skip _ _ _ _ _ _ _ Hbefore).
  cbn [run_steps]. rewrite bind_run, Hk. reflexivity.
Qed.

Lemma run_undefined cfg dev fuel w0 k w :
  all_ok cfg dev fuel (steps_before k) (started cfg w0) = Some w ->
  step_fn cfg dev fuel k w = Undefined ->
  run cfg dev fuel w0 = Undefined.
Proof.
  intros Hbefore Hk.
  rewrite run_as_steps, (all_steps_split k).
  rewrite (run_steps_skip _ _ _ _ _ _ _ Hbefore).
  cbn [run_steps]. rewrite bind_run, Hk. reflexivity.
Qed.

Lemma wait_returns_arm_error cfg dev n deadline w st :
  now w < deadline ->
  g_shutdown_requested dev w = false ->
  on_get_arm_status dev (extend 0 (ShutdownRead HomeWaitLoop false) w) = Some st ->
  error_code st <> 0 ->
  exists w' evs,
    waitHomingDone_loop cfg dev (S n) deadline w = Ret ARM_ERROR w' /\
    grows w w' evs /\
    count (is_sleep (status_poll_interval cfg)) evs = 0%nat.
Proof.
  intros Hlt Hrun Hst Herr.
  apply Z.ltb_lt in Hlt. apply Z.eqb_neq in Herr.
  cbn [waitHomingDone_loop]. reduce_goal. rewrite Hlt, Hrun.
  unfold homing_poll. reduce_goal. rewrite Hst, Herr. cbn [negb].
  eexists. eexists. split; [ reflexivity | ]. split; [ grown | reflexivity ].
Qed.

(** * Properties of the specification *)

(** C1, as the program has it.  When every mode-set and move command is
    acknowledged, no snapshot carries an error, none is at the target and
    nobody asks for shutdown, the homing step makes exactly
    [home_retry_count] attempts (each with one mode-set and one move
    command) and returns [HOME_FAILED]; a run that reached the homing step
    returns it too. *)
Theorem homing_attempts_exact (cfg : Config) (dev : Device) (fuel : nat) (w : World) :
  0 < status_poll_interval cfg ->
  (Z.to_nat (home_timeout cfg) < fuel)%nat ->
  (forall v, g_shutdown_requested dev v = false) ->
  (forall v, ok (on_motion_control_2 dev v) = true) ->
  (forall v, ok (on_move_joint dev v) = true) ->
  (forall v st,
      on_get_arm_status dev v = Some st ->
      error_code st = 0 /\
      all_at_target (position_mdeg st) (target_joints cfg) = false) ->
  exists w' evs,
    performHoming cfg dev fuel w = Ret HOME_FAILED w' /\
    grows w w' evs /\
    count is_mode_set evs = Z.to_nat (home_retry_count cfg) /\
    count is_move evs = Z.to_nat (home_retry_count cfg) /\
    forall w0,
      all_ok cfg dev fuel (steps_before Home) (started cfg w0) = Some w ->
      run cfg dev fuel w0 = Ret HOME_FAILED w'.
Proof.
  intros Hpoll Hfuel Hquiet Hmode Hmove Hstatus.
  destruct (performHoming_exhausts cfg dev fuel Hpoll Hquiet Hmode Hmove)
    with (w := w) as (w' & evs & E & G & M & V).
  - intros v st Hst _. apply (Hstatus v st Hst).
  - exact Hfuel.
  - exists w', evs. repeat split; try assumption.
    intros w0 Hbefore.
    apply (run_stops_at_failure cfg dev fuel w0 Home w HOME_FAILED w' Hbefore E).
    discriminate.
Qed.

(** C2, as the program has it.  A snapshot with an error code makes the
    convergence wait return [ARM_ERROR] at once, without a further sleep;
    the retry loop takes that for a failed attempt, so the homing step
    returns nothing but [OK], [SIGNAL_INTERRUPTED] or [HOME_FAILED], and
    [HOME_FAILED] when the error stays for all [home_retry_count]
    attempts. *)
Theorem homing_arm_error_is_retried (cfg : Config) (dev : Device) (fuel : nat) :
  (forall n deadline w st,
      now w < deadline ->
      g_shutdown_requested dev w = false ->
      on_get_arm_status dev (extend 0 (ShutdownRead HomeWaitLoop false) w) = Some st ->
      error_code st <> 0 ->
      exists w' evs,
        waitHomingDone_loop cfg dev (S n) deadline w = Ret ARM_ERROR w' /\
        grows w w' evs /\
        count (is_sleep (status_poll_interval cfg)) evs = 0%nat) /\
  (forall w e w',
      performHoming cfg dev fuel w = Ret e w' ->
      e = OK \/ e = SIGNAL_INTERRUPTED \/ e = HOME_FAILED) /\
  (0 < status_poll_interval cfg ->
   (Z.to_nat (home_timeout cfg) < fuel)%nat ->
   (forall v, g_shutdown_requested dev v = false) ->
   (forall v, ok (on_motion_control_2 dev v) = true) ->
   (forall v, ok (on_move_joint dev v) = true) ->
   (forall v, exists st, on_get_arm_status dev v = Some st /\ error_code st <> 0) ->
   forall w, exists w' evs,
     performHoming cfg dev fuel w = Ret HOME_FAILED w' /\
     grows w w' evs /\
     count is_mode_set evs = Z.to_nat (home_retry_count cfg)).
Proof.
  split; [ | split ].
  - intros n deadline w st. apply wait_returns_arm_error.
  - intros w e w' H.
    destruct (performHoming_post _ _ _ _ _ _ H) as (_ & _ & _ & _ & O & _).
    destruct e; simpl in O; try discriminate O; auto.
  - intros Hpoll Hfuel Hquiet Hmode Hmove Hfault w.
    destruct (performHoming_exhausts cfg dev fuel Hpoll Hquiet Hmode Hmove)
      with (w := w) as (w' & evs & E & G & M & _).
    + intros v st Hst Hzero.
      destruct (Hfault v) as (st' & Hst' & Hne).
      rewrite Hst in Hst'. injection Hst' as <-. contradiction.
    + exact Hfuel.
    + exists w', evs. repeat split; assumption.
Qed.





(** C7. When the first snapshot of the status check carries an error, a
    reset is issued; if the snapshot fetched after the settle delay still
    carries an error the run returns [ARM_ERROR] (exit code 9) and no enable
    call was ever issued; if it carries none, the step returns [OK] and the
    run goes on with the enable step. *)
Theorem persistent_arm_error_is_fatal (cfg : Config) (dev : Device) (fuel : nat)
    (w : World) (st : ArmStatus) :
  on_get_arm_status dev (first_fetch w) = Some st ->
  error_code st <> 0 ->
  (forall st',
      on_get_arm_status dev (second_fetch dev w (error_code st)) = Some st' ->
      error_code st' <> 0 ->
      exists w' evs,
        checkArmStatus dev w = Ret ARM_ERROR w' /\
        exit_code ARM_ERROR = 9 /\
        grows w w' evs /\
        In (Called CheckStatus reset_arm) evs /\
        forall w0,
          all_ok cfg dev fuel (steps_before CheckStatus) (started cfg w0) = Some w ->
          run cfg dev fuel w0 = Ret ARM_ERROR w' /\
          exists evs0, grows w0 w' evs0 /\ count is_enable evs0 = 0%nat) /\
  (forall st',
      on_get_arm_status dev (second_fetch dev w (error_code st)) = Some st' ->
      error_code st' = 0 ->
      exists w' evs,
        checkArmStatus dev w = Ret OK w' /\
        grows w w' evs /\
        In (Called CheckStatus reset_arm) evs /\
        forall w0,
          all_ok cfg dev fuel (steps_before CheckStatus) (started cfg w0) = Some w ->
          run cfg dev fuel w0 = run_steps cfg dev fuel [Enable; Home] w').
Proof.
  intros Hfirst Herr.
  apply Z.eqb_neq in Herr.
  unfold second_fetch, first_fetch, world_after, reset_and_settle in *.
  cbn [bind ret Monad_M mbind mret info warn error log sleep_for call] in *.
  split; intros st' Hsecond Herr'.
  - apply Z.eqb_neq in Herr'.
    assert (S4 : exists w', checkArmStatus dev w = Ret ARM_ERROR w' /\
                   exists evs, grows w w' evs /\ In (Called CheckStatus reset_arm) evs).
    { unfold checkArmStatus, reset_and_settle. reduce_goal.
      rewrite Hfirst, Herr. cbn [negb]. rewrite Hsecond, Herr'. cbn [negb].
      eexists. split; [ reflexivity | ].
      eexists. split; [ grown | ]. simpl. tauto. }
    destruct S4 as (w' & S4 & evs & G & R).
    exists w', evs. repeat split; try assumption.
    + eapply run_stops_at_failure with (k := CheckStatus); try eassumption.
      discriminate.
    + destruct (run_stops_at_failure cfg dev fuel w0 CheckStatus w ARM_ERROR w')
        as (_ & evs0 & G0 & C); try assumption; [ discriminate | ].
      exists evs0. split; [ exact G0 | ].
      apply (no_enable_before evs0 CheckStatus); [ simpl; lia | exact C ].
  - apply Z.eqb_eq in Herr'.
    assert (S4 : exists w', checkArmStatus dev w = Ret OK w' /\
                   exists evs, grows w w' evs /\ In (Called CheckStatus reset_arm) evs).
    { unfold checkArmStatus, reset_and_settle, report_status. reduce_goal.
      rewrite Hfirst, Herr. cbn [negb]. rewrite Hsecond, Herr'. cbn [negb].
      eexists. split; [ reflexivity | ].
      eexists. split; [ grown | ]. simpl. tauto. }
    destruct S4 as (w' & S4 & evs & G & R).
    exists w', evs. repeat split; try assumption.
    intros w0 Hbefore.
    apply (run_continues cfg dev fuel w0 CheckStatus w w' Hbefore S4).
Qed.

(** C8. When the first snapshot of the status check carries an error and
    the fetch after the reset yields no snapshot, the closing log line
    dereferences the empty optional: the step, and with it the run, has no
    defined outcome. *)
Theorem refetch_without_status_is_undefined (cfg : Config) (dev : Device)
    (fuel : nat) (w : World) (st : ArmStatus) :
  on_get_arm_status dev (first_fetch w) = Some st ->
  error_code st <> 0 ->
  on_get_arm_status dev (second_fetch dev w (error_code st)) = None ->
  checkArmStatus dev w = Undefined /\
  forall w0,
    all_ok cfg dev fuel (steps_before CheckStatus) (started cfg w0) = Some w ->
    run cfg dev fuel w0 = Undefined.
Proof.
  intros Hfirst Herr Hsecond.
  apply Z.eqb_neq in Herr.
  unfold second_fetch, first_fetch, world_after, reset_and_settle in *.
  cbn [bind ret Monad_M mbind mret info warn error log sleep_for call] in *.
  assert (S4 : checkArmStatus dev w = Undefined).
  { unfold checkArmStatus, reset_and_settle, report_status. reduce_goal.
    rewrite Hfirst, Herr. cbn [negb]. rewrite Hsecond. reflexivity. }
  split; [ exact S4 | ].
  intros w0 Hbefore.
  apply (run_undefined cfg dev fuel w0 CheckStatus w Hbefore S4).
Qed.

(** C9. [ENABLE_FAILED] (3), [HOME_TIMEOUT] (6) and [STATUS_CHECK_FAILED]
    (8) are never the result of [run], although the three exit codes are
    defined: the enable step never returns the first, the homing step
    never returns the second, and no step returns the third. *)
Theorem unused_outcomes (cfg : Config) (dev : Device) (fuel : nat)
    (w : World) (e : InitError) (w' : World) :
  run cfg dev fuel w = Ret e w' ->
  (e <> ENABLE_FAILED /\ e <> HOME_TIMEOUT /\ e <> STATUS_CHECK_FAILED) /\
  (exit_code e <> 3 /\ exit_code e <> 6 /\ exit_code e <> 8) /\
  (exit_code ENABLE_FAILED = 3 /\ exit_code HOME_TIMEOUT = 6 /\
   exit_code STATUS_CHECK_FAILED = 8) /\
  (forall v e1 v', enableMotors cfg dev fuel v = Ret e1 v' -> e1 <> ENABLE_FAILED) /\
  (forall v e1 v', performHoming cfg dev fuel v = Ret e1 v' -> e1 <> HOME_TIMEOUT) /\
  (forall k v e1 v', step_fn cfg dev fuel k v = Ret e1 v' -> e1 <> STATUS_CHECK_FAILED).
Proof.
  intros H.
  assert (R : e <> ENABLE_FAILED /\ e <> HOME_TIMEOUT /\ e <> STATUS_CHECK_FAILED).
  { destruct (run_post _ _ _ _ _ _ H) as (_ & _ & _ & [ -> | (k & O) ] & _).
    - repeat split; discriminate.
    - destruct k, e; simpl in O; try discriminate O; repeat split; discriminate. }
  split; [ exact R | ]. split.
  - destruct R as (R1 & R2 & R3).
    destruct e; simpl; repeat split; try discriminate; congruence.
  - split; [ repeat split | ]. repeat split.
    + intros v e1 v' E.
      destruct (enableMotors_post _ _ _ _ _ _ E) as (_ & _ & _ & _ & O & _).
      destruct e1; simpl in O; try discriminate O; discriminate.
    + intros v e1 v' E.
      destruct (performHoming_post _ _ _ _ _ _ E) as (_ & _ & _ & _ & O & _).
      destruct e1; simpl in O; try discriminate O; discriminate.
    + intros k v e1 v' E.
      destruct (step_fn_post _ _ _ _ _ _ _ E) as (_ & _ & _ & _ & O & _).
      destruct k, e1; simpl in O; try discriminate O; discriminate.
Qed.

(** C10. A snapshot with [error_code = 0] and an empty position vector
    makes the convergence wait return [OK] on that poll: no index is
    present in both vectors, so nothing is compared. *)
Theorem empty_report_converges (cfg : Config) (dev : Device) (n : nat)
    (deadline : Z) (w : World) (st : ArmStatus) :
  now w < deadline ->
  g_shutdown_requested dev w = false ->
  on_get_arm_status dev (extend 0 (ShutdownRead HomeWaitLoop false) w) = Some st ->
  error_code st = 0 ->
  position_mdeg st = [] ->
  all_at_target (position_mdeg st) (target_joints cfg) = true /\
  exists w', waitHomingDone_loop cfg dev (S n) deadline w = Ret OK w'.
Proof.
  intros Hlt Hrun Hst Herr Hempty.
  assert (T : all_at_target (position_mdeg st) (target_joints cfg) = true)
    by (rewrite Hempty; reflexivity).
  split; [ exact T | ].
  cbn [waitHomingDone_loop]. reduce_goal.
  apply Z.ltb_lt in Hlt. rewrite Hlt, Hrun.
  unfold homing_poll. reduce_goal.
  rewrite Hst, Herr. cbn [Z.eqb negb]. rewrite T.
  eexists. reflexivity.
Qed.

(** ** Runs that contradict the specification as written *)

(** C1 as stated fails: with [home_retry_count = 2], mode-set and move
    acknowledged, no arm error and no convergence, the run returns
    [HOME_FAILED] after two attempts (two convergence waits that time
    out), not three. *)
Lemma three_attempts_counterexample :
  home_retry_count main_config = 2 /\
  (forall v st,
      on_get_arm_status stuck_arm v = Some st ->
      error_code st = 0 /\
      all_at_target (position_mdeg st) (target_joints main_config) = false) /\
  observe is_mode_set (run main_config stuck_arm 1300 boot) = Some (HOME_FAILED, 2%nat) /\
  observe is_move (run main_config stuck_arm 1300 boot) = Some (HOME_FAILED, 2%nat) /\
  observe is_wait_timeout_log (run main_config stuck_arm 1300 boot)
    = Some (HOME_FAILED, 2%nat) /\
  ~ (exists w',
        run main_config stuck_arm 1300 boot = Ret HOME_FAILED w' /\
        count is_mode_set (trace w') = 3%nat).
Proof.
  assert (R : observe is_mode_set (run main_config stuck_arm 1300 boot)
              = Some (HOME_FAILED, 2%nat)) by (vm_compute; reflexivity).
  split; [ reflexivity | ].
  split; [ intros v st [= <-]; split; reflexivity | ].
  split; [ exact R | ].
  split; [ vm_compute; reflexivity | ].
  split; [ vm_compute; reflexivity | ].
  intros (w' & E & C). rewrite E in R. simpl in R. rewrite C in R. discriminate R.
Qed.

(** C2 as stated fails: the arm reports error 3 in each convergence wait,
    and the run returns [HOME_FAILED] after a second attempt instead of
    [ARM_ERROR]. *)
Lemma arm_error_propagation_counterexample :
  observe is_arm_error_log (run main_config faulting_arm 1300 boot)
    = Some (HOME_FAILED, 2%nat) /\
  observe is_mode_set (run main_config faulting_arm 1300 boot)
    = Some (HOME_FAILED, 2%nat) /\
  ~ (exists w', run main_config faulting_arm 1300 boot = Ret ARM_ERROR w').
Proof.
  assert (R : observe is_arm_error_log (run main_config faulting_arm 1300 boot)
              = Some (HOME_FAILED, 2%nat)) by (vm_compute; reflexivity).
  split; [ exact R | ].
  split; [ vm_compute; reflexivity | ].
  intros (w' & E). rewrite E in R. discriminate R.
Qed.

(** ** The theorems at work *)

Lemma homing_attempts_exact_witness :
  exists w' evs,
    performHoming quick_config stuck_arm 500 boot = Ret HOME_FAILED w' /\
    grows boot w' evs /\
    count is_mode_set evs = 2%nat /\
    count is_move evs = 2%nat /\
    forall w0,
      all_ok quick_config stuck_arm 500 (steps_before Home) (started quick_config w0)
        = Some boot ->
      run quick_config stuck_arm 500 w0 = Ret HOME_FAILED w'.
Proof.
  apply (homing_attempts_exact quick_config stuck_arm 500 boot).
  - reflexivity.
  - vm_compute. lia.
  - reflexivity.
  - reflexivity.
  - reflexivity.
  - intros v st [= <-]. split; reflexivity.
Defined.

Lemma homing_arm_error_is_retried_witness :
  (exists w' evs,
      waitHomingDone_loop quick_config broken_arm 1 400 boot = Ret ARM_ERROR w' /\
      grows boot w' evs /\
      count (is_sleep 50) evs = 0%nat) /\
  (exists w' evs,
      performHoming quick_config broken_arm 500 boot = Ret HOME_FAILED w' /\
      grows boot w' evs /\
      count is_mode_set evs = 2%nat).
Proof.
  destruct (homing_arm_error_is_retried quick_config broken_arm 500) as (A & _ & C).
  split.
  - apply (A 0%nat 400 boot (at_rest 3)).
    + reflexivity.
    + reflexivity.
    + reflexivity.
    + simpl. lia.
  - apply C.
    + reflexivity.
    + vm_compute. lia.
    + reflexivity.
    + reflexivity.
    + reflexivity.
    + intros v. exists (at_rest 3). split; [ reflexivity | simpl; lia ].
Defined.





Lemma persistent_arm_error_is_fatal_witness :
  (exists w' evs,
      checkArmStatus broken_arm (arrival quick_config broken_arm 20 CheckStatus)
        = Ret ARM_ERROR w' /\
      exit_code ARM_ERROR = 9 /\
      grows (arrival quick_config broken_arm 20 CheckStatus) w' evs /\
      In (Called CheckStatus reset_arm) evs /\
      forall w0,
        all_ok quick_config broken_arm 20 (steps_before CheckStatus)
          (started quick_config w0)
          = Some (arrival quick_config broken_arm 20 CheckStatus) ->
        run quick_config broken_arm 20 w0 = Ret ARM_ERROR w' /\
        exists evs0, grows w0 w' evs0 /\ count is_enable evs0 = 0%nat) /\
  (exists w' evs,
      checkArmStatus recovering_arm (arrival quick_config recovering_arm 20 CheckStatus)
        = Ret OK w' /\
      grows (arrival quick_config recovering_arm 20 CheckStatus) w' evs /\
      In (Called CheckStatus reset_arm) evs /\
      forall w0,
        all_ok quick_config recovering_arm 20 (steps_before CheckStatus)
          (started quick_config w0)
          = Some (arrival quick_config recovering_arm 20 CheckStatus) ->
        run quick_config recovering_arm 20 w0
          = run_steps quick_config recovering_arm 20 [Enable; Home] w').
Proof.
  split.
  - apply (proj1 (persistent_arm_error_is_fatal quick_config broken_arm 20
                    (arrival quick_config broken_arm 20 CheckStatus) (at_rest 3)
                    eq_refl ltac:(simpl; lia)) (at_rest 3)).
    + reflexivity.
    + simpl. lia.
  - apply (proj2 (persistent_arm_error_is_fatal quick_config recovering_arm 20
                    (arrival quick_config recovering_arm 20 CheckStatus) (at_rest 3)
                    eq_refl ltac:(simpl; lia)) (at_rest 0)).
    + reflexivity.
    + reflexivity.
Defined.

Lemma refetch_without_status_is_undefined_witness :
  checkArmStatus silent_after_reset
    (arrival quick_config silent_after_reset 20 CheckStatus) = Undefined /\
  forall w0,
    all_ok quick_config silent_after_reset 20 (steps_before CheckStatus)
      (started quick_config w0)
      = Some (arrival quick_config silent_after_reset 20 CheckStatus) ->
    run quick_config silent_after_reset 20 w0 = Undefined.
Proof.
  apply (refetch_without_status_is_undefined quick_config silent_after_reset 20
           (arrival quick_config silent_after_reset 20 CheckStatus) (at_rest 3)).
  - reflexivity.
  - simpl. lia.
  - reflexivity.
Defined.

Lemma unused_outcomes_witness :
  (OK <> ENABLE_FAILED /\ OK <> HOME_TIMEOUT /\ OK <> STATUS_CHECK_FAILED) /\
  (exit_code OK <> 3 /\ exit_code OK <> 6 /\ exit_code OK <> 8) /\
  (exit_code ENABLE_FAILED = 3 /\ exit_code HOME_TIMEOUT = 6 /\
   exit_code STATUS_CHECK_FAILED = 8) /\
  (forall v e1 v',
      enableMotors quick_config homing_arm 20 v = Ret e1 v' -> e1 <> ENABLE_FAILED) /\
  (forall v e1 v',
      performHoming quick_config homing_arm 20 v = Ret e1 v' -> e1 <> HOME_TIMEOUT) /\
  (forall k v e1 v',
      step_fn quick_config homing_arm 20 k v = Ret e1 v' -> e1 <> STATUS_CHECK_FAILED).
Proof.
  apply (unused_outcomes quick_config homing_arm 20 boot OK homed_world).
  vm_compute. reflexivity.
Defined.

Lemma empty_report_converges_witness :
  all_at_target [] (target_joints main_config) = true /\
  exists w', waitHomingDone_loop main_config mute_joints 1 60000 boot = Ret OK w'.
Proof.
  apply (empty_report_converges main_config mute_joints 0 60000 boot
           {| error_code := 0; enabled := true; control_mode := 1;
              position_mdeg := [] |}).
  - reflexivity.
  - reflexivity.
  - reflexivity.
  - reflexivity.
  - reflexivity.
Defined.

(** The undefined path of the status check reaches [main]: on the bench
    the whole program has no exit code. *)
Example main_undefined : main silent_after_reset 1300 boot = Undefined.
Proof. vm_compute. reflexivity. Qed.

(** The scenario of the spec: the arm connects, enables and reaches the
    target at the first poll after the move command; exit code 0. *)
Example main_succeeds :
  exists w', main homing_arm 1300 boot = Ret 0 w'.
Proof. vm_compute. eexists. reflexivity. Qed.

(** Each of the five loops reads the flag, and a run stopped in any of
    them returns [SIGNAL_INTERRUPTED]. *)
Example every_loop_stops :
  stopping_loops (run main_config stopped_at_boot 1300 boot)
    = Some (SIGNAL_INTERRUPTED, [AwaitLinkLoop]) /\
  stopping_loops (run main_config stopped_on_enable 1300 boot)
    = Some (SIGNAL_INTERRUPTED, [EnableFastLoop]) /\
  stopping_loops (run main_config stopped_after_fast_loop 1300 boot)
    = Some (SIGNAL_INTERRUPTED, [EnableLongLoop]) /\
  stopping_loops (run main_config stopped_before_homing 1300 boot)
    = Some (SIGNAL_INTERRUPTED, [HomeRetryLoop]) /\
  stopping_loops (run main_config stopped_while_homing 1300 boot)
    = Some (SIGNAL_INTERRUPTED, [HomeWaitLoop]).
Proof. repeat split; vm_compute; reflexivity. Qed.

(** * Further properties of the program *)

Ltac conj_split := repeat match goal with |- _ /\ _ => split end.

Ltac count_more :=
  repeat first [ rewrite count_app | rewrite count_cons | rewrite count_nil ];
  cbn [is_mode_set is_move is_enable is_sleep is_call is_flag_read is_any_sleep
       is_link_poll is_status_poll is_confirm_poll is_enable_command is_reset
       is_make_interface Z.eqb Pos.eqb].

(** ** Timeouts are never reported early *)






(** Composing a known prefix of events with what a later part adds. *)
Lemma grows_then (P Q : list Event -> Prop) w w1 w' evs1 :
  grows w w1 evs1 ->
  (exists evs2, grows w1 w' evs2 /\ Q evs2) ->
  (forall evs2, Q evs2 -> P (evs2 ++ evs1)) ->
  exists evs, grows w w' evs /\ P evs.
Proof.
  intros G (evs2 & G2 & HQ) I.
  exists (evs2 ++ evs1). split; [ eapply grows_trans; eassumption | auto ].
Qed.

(** ** The enable step *)

(** What the fast loop does, whatever the device answers: it sleeps 10 ms
    once per increment of its counter and checks the confirmation once
    more than it sleeps, unless it is interrupted. *)
Lemma enable_fast_loop_counts dev n : forall r w res w',
  enable_fast_loop dev n r w = Ret res w' ->
  r <= MAX_RETRIES ->
  exists evs,
    grows w w' evs /\
    (count (is_sleep 10) evs <= Z.to_nat (MAX_RETRIES - r))%nat /\
    count is_any_sleep evs = count (is_sleep 10) evs /\
    (count is_confirm_poll evs <= S (Z.to_nat (MAX_RETRIES - r)))%nat /\
    count is_enable_command evs = 0%nat /\
    forall r', res = inr r' ->
      r <= r' <= MAX_RETRIES /\
      count (is_sleep 10) evs = Z.to_nat (r' - r) /\
      now w + 10 * (r' - r) <= now w' /\
      (r' < MAX_RETRIES -> exists v, between w v w' /\ on_enable_piper dev v = true).
Proof.
  induction n as [ | n IH ]; intros r w res w' H Hr; [ discriminate H | ].
  cbn [enable_fast_loop] in H. run_known H.
  - injection H as <- <-. eexists. split; [ grown | ].
    count_more. conj_split; try lia. intros r' [=].
  - apply andb_true_iff in E. destruct E as [ _ Elt ]. apply Z.ltb_lt in Elt.
    match type of H with
    | enable_fast_loop _ _ _ ?wm = _ =>
        destruct (IH _ _ _ _ H) as (evs & G & S10 & Sany & Cp & Ce & R); [ lia | ];
        eapply grows_then with (w1 := wm) (Q := eq evs);
        [ grown | exists evs; split; [ exact G | reflexivity ] | ]
    end.
    intros evs2 <-. count_more. rewrite Sany, Ce.
    replace (Z.to_nat (MAX_RETRIES - r)) with (S (Z.to_nat (MAX_RETRIES - (r + 1))))
      by lia.
    conj_split; try lia.
    intros r' Hres. destruct (R r' Hres) as (R1 & R2 & R3 & R4).
    conj_split; try lia.
    + apply grows_now in G. rewrite !now_extend in *. lia.
    + intros Hlt. destruct (R4 Hlt) as (v & (a & b & Ga & Gb) & Hv).
      exists v. split; [ | exact Hv ].
      eexists. exists b. split; [ | exact Gb ].
      eapply grows_trans; [ | exact Ga ]. grown.
  - injection H as <- <-. eexists. split; [ grown | ].
    count_more. conj_split; try lia.
    intros r' [= <-]. conj_split; try lia.
    + rewrite now_extend. lia.
    + intros Hlt. apply Z.ltb_lt in Hlt. rewrite Hlt, andb_true_r in E.
      apply negb_false_iff in E.
      exists w. split; [ | exact E ].
      exists []. eexists. split; [ constructor | grown ].
Qed.

Lemma between_here w w' evs : grows w w' evs -> between w w w'.
Proof. intros G. exists [], evs. split; [ constructor | exact G ]. Qed.

Lemma between_widen w w1 v w2 w' evs1 evs2 :
  grows w w1 evs1 -> between w1 v w2 -> grows w2 w' evs2 -> between w v w'.
Proof.
  intros G1 (a & b & Ga & Gb) G2.
  exists (a ++ evs1), (evs2 ++ b).
  split; eapply grows_trans; eassumption.
Qed.

Lemma enable_fast_loop_total dev n : forall r w,
  (Z.to_nat (MAX_RETRIES - r) < n)%nat ->
  exists res w', enable_fast_loop dev n r w = Ret res w'.
Proof.
  induction n as [ | n IH ]; intros r w Hn; [ lia | ].
  cbn [enable_fast_loop]. reduce_goal.
  destruct (negb (on_enable_piper dev w)); cbn [andb]; [ | eauto ].
  destruct (Z.ltb_spec r MAX_RETRIES) as [ Hlt | Hge ]; [ | eauto ].
  destruct (g_shutdown_requested dev _); [ eauto | ].
  apply IH. lia.
Qed.

Lemma enable_long_loop_counts cfg dev n : forall deadline w e w',
  enable_long_loop cfg dev n deadline w = Ret e w' ->
  exists evs,
    grows w w' evs /\
    count is_enable_command evs = 0%nat /\
    (e = OK -> exists v, between w v w' /\ on_enable_piper dev v = true).
Proof.
  induction n as [ | n IH ]; intros deadline w e w' H; [ discriminate H | ].
  cbn [enable_long_loop] in H. run_known H.
  - injection H as <- <-. eexists. split; [ grown | ].
    split; [ reflexivity | discriminate ].
  - injection H as <- <-. eexists. split; [ grown | ].
    split; [ reflexivity | ]. intros _.
    exists (extend 0 (ShutdownRead EnableLongLoop false) w).
    split; [ | exact E1 ].
    eexists. eexists. split; grown.
  - match type of H with
    | enable_long_loop _ _ _ _ ?wm = _ =>
        destruct (IH _ _ _ _ H) as (evs & G & Ce & R);
        eapply grows_then with (w1 := wm) (Q := eq evs);
        [ grown | exists evs; split; [ exact G | reflexivity ] | ]
    end.
    intros evs2 <-. count_more. rewrite Ce. split; [ reflexivity | ].
    intros He. destruct (R He) as (v & B & Hv). exists v. split; [ | exact Hv ].
    eapply between_widen; [ | exact B | apply grows_refl ]. grown.
  - injection H as <- <-. eexists. split; [ grown | ].
    split; [ reflexivity | discriminate ].
Qed.

Lemma send_enable_counts dev w u w0 :
  send_enable dev w = Ret u w0 ->
  exists evs,
    grows w w0 evs /\
    count is_enable_command evs = 1%nat /\
    In (Called Enable (enable_arm 7)) evs /\
    count is_any_sleep evs = 0%nat /\
    now w <= now w0.
Proof.
  unfold send_enable. intros H. run_known H; injection H as <- <-;
    (eexists; split; [ grown | ]); rewrite ?now_extend;
    (conj_split; [ reflexivity | simpl; tauto | reflexivity | lia ]).
Qed.

(** What [enableMotors] is made of. *)
Lemma enableMotors_parts cfg dev fuel w e w' :
  enableMotors cfg dev fuel w = Ret e w' ->
  exists w0 res w1,
    send_enable dev w = Ret tt w0 /\
    enable_fast_loop dev (S (Z.to_nat MAX_RETRIES)) 0 w0 = Ret res w1 /\
    enable_escalate cfg dev fuel res w1 = Ret e w'.
Proof.
  unfold enableMotors. intros H. rewrite bind_run in H.
  destruct (send_enable dev w) as [ [] w0 | | ] eqn:E0; try discriminate H.
  rewrite bind_run in H.
  destruct (enable_fast_loop dev (S (Z.to_nat MAX_RETRIES)) 0 w0) as [ res w1 | | ] eqn:E1;
    try discriminate H.
  exists w0, res, w1. split; [ reflexivity | ]. split; [ exact E1 | exact H ].
Qed.


(** X3. Whatever the device answers, the fast confirmation loop of
    [enableMotors] ends: it checks the confirmation at most 201 times,
    sleeps at most 200 times, 10 ms each, and stops early only on
    cancellation. *)
Theorem fast_loop_bounded (dev : Device) (w : World) :
  exists res w' evs,
    enable_fast_loop dev (S (Z.to_nat MAX_RETRIES)) 0 w = Ret res w' /\
    grows w w' evs /\
    (count is_confirm_poll evs <= 201)%nat /\
    (count is_any_sleep evs <= 200)%nat /\
    count is_any_sleep evs = count (is_sleep 10) evs /\
    (forall e, res = inl e -> e = SIGNAL_INTERRUPTED) /\
    (forall r, res = inr r -> 0 <= r <= 200 /\ count is_any_sleep evs = Z.to_nat r).
Proof.
  destruct (enable_fast_loop_total dev (S (Z.to_nat MAX_RETRIES)) 0 w)
    as (res & w' & H); [ rewrite Z.sub_0_r; lia | ].
  destruct (enable_fast_loop_counts _ _ _ _ _ _ H) as (evs & G & S10 & Sany & Cp & _ & R);
    [ unfold MAX_RETRIES; lia | ].
  destruct (enable_fast_loop_post _ _ _ _ _ _ H) as [ _ Q ].
  exists res, w', evs. unfold MAX_RETRIES in *. rewrite Z.sub_0_r in *.
  conj_split; try assumption; try lia.
  intros r Hr. destruct (R r Hr) as (R1 & R2 & _).
  rewrite Z.sub_0_r in R2. split; lia.
Qed.

(** X4. However [enableMotors] ends, it has sent the enable command
    exactly once, as [enable_arm(7)]; and it returns [OK] only when a
    confirmation check answered true. *)
Theorem enable_command_sent_once (cfg : Config) (dev : Device) (fuel : nat)
    (w : World) (e : InitError) (w' : World) :
  enableMotors cfg dev fuel w = Ret e w' ->
  exists evs,
    grows w w' evs /\
    count is_enable_command evs = 1%nat /\
    In (Called Enable (enable_arm 7)) evs /\
    (e = OK -> exists v, between w v w' /\ on_enable_piper dev v = true).
Proof.
  intros H. destruct (enableMotors_parts _ _ _ _ _ _ H) as (w0 & res & w1 & S0 & S1 & S2).
  destruct (send_enable_counts _ _ _ _ S0) as (evs0 & G0 & C0 & I0 & _).
  destruct (enable_fast_loop_counts _ _ _ _ _ _ S1) as (evs1 & G1 & _ & _ & _ & C1 & R);
    [ unfold MAX_RETRIES; lia | ].
  destruct res as [ e1 | r ]; unfold enable_escalate in S2.
  - injection S2 as <- <-.
    destruct (enable_fast_loop_post _ _ _ _ _ _ S1) as [ _ Q ].
    exists (evs1 ++ evs0). split; [ eapply grows_trans; eassumption | ].
    rewrite count_app, C0, C1. conj_split; [ reflexivity | | ].
    + apply in_or_app. right. exact I0.
    + intros ->. specialize (Q _ eq_refl). discriminate Q.
  - destruct (R r eq_refl) as (Rr & _ & _ & Rc).
    run_known S2.
    + destruct (enable_long_loop_counts _ _ _ _ _ _ _ S2) as (evs2 & G2 & C2 & R2).
      exists (evs2 ++ evs1 ++ evs0).
      split; [ eapply grows_trans; [ eapply grows_trans; eassumption | exact G2 ] | ].
      rewrite !count_app, C0, C1, C2. conj_split; [ reflexivity | | ].
      * apply in_or_app. right. apply in_or_app. right. exact I0.
      * intros He. destruct (R2 He) as (v & B & Hv). exists v. split; [ | exact Hv ].
        eapply between_widen; [ eapply grows_trans; eassumption | exact B | constructor ].
    + injection S2 as <- <-. apply Z.leb_gt in E.
      exists ((Logged INFO "Arm enabled" :: evs1) ++ evs0).
      split; [ eapply grows_trans; [ exact G0 | ]; constructor; exact G1 | ].
      rewrite !count_app, count_cons, C0, C1. conj_split; [ reflexivity | | ].
      * apply in_or_app. right. exact I0.
      * intros _. destruct (Rc E) as (v & B & Hv). exists v. split; [ | exact Hv ].
        eapply between_widen; [ exact G0 | exact B | grown ].
Qed.

(** ** The link wait *)

Lemma poll_bound_step (k : nat) (I D t t1 : Z) :
  t < D ->
  t + Z.max 0 I <= t1 ->
  (k = 0%nat \/ (Z.of_nat k - 1) * I < D - t1) ->
  (Z.of_nat (S k) - 1) * I < D - t.
Proof.
  intros Ht Ht1 [ -> | Hk ]; [ simpl; lia | ].
  replace ((Z.of_nat (S k) - 1) * I) with ((Z.of_nat k - 1) * I + I) by lia.
  lia.
Qed.

Lemma waitForConnection_loop_facts cfg dev n : forall deadline w e w',
  waitForConnection_loop cfg dev n deadline w = Ret e w' ->
  exists evs,
    grows w w' evs /\
    (count is_link_poll evs = 0%nat \/
     (Z.of_nat (count is_link_poll evs) - 1) * status_poll_interval cfg
     < deadline - now w) /\
    (e = OK ->
     now w < deadline /\
     exists v,
       between w v w' /\
       connected (on_get_connect_status dev v) = true /\
       stale (on_get_connect_status dev v) = false).
Proof.
  induction n as [ | n IH ]; intros deadline w e w' H; [ discriminate H | ].
  cbn [waitForConnection_loop] in H. run_known H.
  1-3: injection H as <- <-; apply Z.ltb_lt in E;
    (eexists; split; [ grown | ]); count_more;
    (split; [ first [ left; reflexivity | right; simpl; lia ] | ]).
  4: { apply Z.ltb_lt in E.
       match type of H with
       | waitForConnection_loop _ _ _ _ ?wm = _ =>
           destruct (IH _ _ _ _ H) as (evs & G & B & R);
           eapply grows_then with (w1 := wm) (Q := eq evs);
           [ grown | exists evs; split; [ exact G | reflexivity ] | ]
       end.
       intros evs2 <-. count_more. split.
       - right. apply (poll_bound_step _ _ _ (now w) _ E) in B;
           [ | rewrite !now_extend; lia ].
         match goal with
         | |- (Z.of_nat ?k - 1) * _ < _ =>
             replace k with (S (count is_link_poll evs)) by lia
         end.
         exact B.
       - intros He. split; [ exact E | ].
         destruct (R He) as (_ & v & Bv & Hv). exists v. split; [ | exact Hv ].
         eapply between_widen; [ | exact Bv | apply grows_refl ]. grown. }
  4: { injection H as <- <-. eexists. split; [ grown | ].
       split; [ left; reflexivity | discriminate ]. }
  - discriminate.
  - intros _. split; [ exact E | ].
    exists (extend 0 (ShutdownRead AwaitLinkLoop false) w).
    apply andb_true_iff in E1. destruct E1 as [ Ec Es ].
    apply negb_true_iff in Es. split; [ | split; assumption ].
    eexists. eexists. split; grown.
  - intros _. split; [ exact E | ].
    exists (extend 0 (ShutdownRead AwaitLinkLoop false) w).
    apply andb_true_iff in E1. destruct E1 as [ Ec Es ].
    apply negb_true_iff in Es. split; [ | split; assumption ].
    eexists. eexists. split; grown.
Qed.


(** ** Homing, whatever the device does *)

(** A snapshot on which the convergence wait succeeds. *)
Lemma homing_poll_events cfg dev w r w' :
  homing_poll cfg dev w = Ret r w' ->
  exists evs,
    grows w w' evs /\
    count is_status_poll evs = 1%nat /\
    count is_mode_set evs = 0%nat /\
    count is_move evs = 0%nat /\
    (r = Some OK ->
     exists st,
       on_get_arm_status dev w = Some st /\ error_code st = 0 /\
       all_at_target (position_mdeg st) (target_joints cfg) = true) /\
    (r = Some ARM_ERROR ->
     exists st, on_get_arm_status dev w = Some st /\ error_code st <> 0).
Proof.
  unfold homing_poll. intros H. run_known H; injection H as <- <-;
    (eexists; split; [ grown | ]); count_more;
    (conj_split; try reflexivity; try discriminate); intros _.
  - exists a. split; [ reflexivity | ].
    apply negb_true_iff, Z.eqb_neq in E0. exact E0.
  - exists a. apply negb_false_iff, Z.eqb_eq in E0. repeat split; assumption.
Qed.

Lemma waitHomingDone_loop_facts cfg dev n : forall deadline w e w',
  waitHomingDone_loop cfg dev n deadline w = Ret e w' ->
  exists evs,
    grows w w' evs /\
    count is_mode_set evs = 0%nat /\
    count is_move evs = 0%nat /\
    (count is_status_poll evs = 0%nat \/
     (Z.of_nat (count is_status_poll evs) - 1) * status_poll_interval cfg
     < deadline - now w) /\
    (e = OK ->
     now w < deadline /\
     exists v st,
       between w v w' /\
       on_get_arm_status dev v = Some st /\ error_code st = 0 /\
       all_at_target (position_mdeg st) (target_joints cfg) = true).
Proof.
  induction n as [ | n IH ]; intros deadline w e w' H; [ discriminate H | ].
  cbn [waitHomingDone_loop] in H. run_known H.
  - injection H as <- <-. eexists. split; [ grown | ].
    conj_split; try reflexivity; [ left; reflexivity | discriminate ].
  - injection H as <- <-. apply Z.ltb_lt in E.
    destruct (homing_poll_events _ _ _ _ _ E1) as (evs & G & Cs & Cm & Cv & Rok & _).
    eapply grows_then with (Q := eq evs);
      [ | exists evs; split; [ exact G | reflexivity ] | ]; [ grown | ].
    intros evs2 <-. count_more. rewrite Cs, Cm, Cv.
    conj_split; try reflexivity; [ right; simpl; lia | ].
    intros ->. split; [ exact E | ].
    destruct (Rok eq_refl) as (st & Hst & Hz & Ht).
    exists (extend 0 (ShutdownRead HomeWaitLoop false) w), st.
    split; [ | repeat split; assumption ].
    eexists. exists evs. split; [ grown | exact G ].
  - apply Z.ltb_lt in E.
    destruct (homing_poll_events _ _ _ _ _ E1) as (evs1 & G1 & Cs1 & Cm1 & Cv1 & _).
    destruct (IH _ _ _ _ H) as (evs & G & Cm & Cv & B & R).
    exists (evs ++ (Slept (status_poll_interval cfg) :: evs1)
                ++ [ShutdownRead HomeWaitLoop false]).
    split.
    { eapply grows_trans; [ | exact G ].
      eapply grows_trans; [ | apply grows_step; exact G1 ]. grown. }
    count_more. rewrite Cs1, Cm1, Cv1, Cm, Cv.
    conj_split; try reflexivity.
    + right.
      apply (poll_bound_step _ _ _ (now w) _ E) in B.
      * match goal with
        | |- (Z.of_nat ?k - 1) * _ < _ =>
            replace k with (S (count is_status_poll evs)) by lia
        end.
        exact B.
      * apply grows_now in G1. rewrite !now_extend in *. lia.
    + intros He. split; [ exact E | ].
      destruct (R He) as (_ & v & st & Bv & Hv). exists v, st. split; [ | exact Hv ].
      eapply between_widen; [ | exact Bv | apply grows_refl ].
      eapply grows_trans; [ | apply grows_step; exact G1 ]. grown.
  - injection H as <- <-. eexists. split; [ grown | ].
    conj_split; try reflexivity; [ left; reflexivity | discriminate ].
Qed.


Lemma waitHomingDone_facts cfg dev fuel w e w' :
  waitHomingDone cfg dev fuel w = Ret e w' ->
  exists evs,
    grows w w' evs /\
    count is_mode_set evs = 0%nat /\
    count is_move evs = 0%nat /\
    (e = OK ->
     0 < home_timeout cfg /\
     exists v st,
       between w v w' /\
       on_get_arm_status dev v = Some st /\ error_code st = 0 /\
       all_at_target (position_mdeg st) (target_joints cfg) = true).
Proof.
  unfold waitHomingDone. intros H. run_known H.
  destruct (waitHomingDone_loop_facts _ _ _ _ _ _ _ H) as (evs & G & Cm & Cv & _ & R).
  exists evs. conj_split; try assumption.
  intros He. destruct (R He) as (Hlt & Q). split; [ lia | exact Q ].
Qed.

Ltac ltb_hyps :=
  repeat match goal with
         | Q : (_ <? _) = true |- _ => apply Z.ltb_lt in Q
         | Q : (_ <? _) = false |- _ => apply Z.ltb_ge in Q
         end.

Lemma homing_loop_facts cfg dev fuel k : forall retry w e w',
  homing_loop cfg dev fuel k retry w = Ret e w' ->
  k = Z.to_nat (home_retry_count cfg - retry) ->
  exists evs,
    grows w w' evs /\
    (count is_mode_set evs <= k)%nat /\
    (count is_move evs <= count is_mode_set evs)%nat /\
    (e = HOME_FAILED -> count is_mode_set evs = k) /\
    (e = OK ->
     0 < home_timeout cfg /\
     (1 <= count is_move evs)%nat /\
     exists v st,
       between w v w' /\
       on_get_arm_status dev v = Some st /\ error_code st = 0 /\
       all_at_target (position_mdeg st) (target_joints cfg) = true).
Proof.
  induction k as [ | k IH ]; intros retry w e w' H Hk;
    cbn [homing_loop] in H; run_known H; ltb_hyps.
  (* the loop ends here without a convergence wait *)
  all: try (injection H as <- <-; (eexists; split; [ solve [ grown ] | ]); count_more;
            conj_split; try discriminate; intros; lia).
  (* the attempt is abandoned before the wait and the loop goes on *)
  all: try (match type of H with
            | homing_loop _ _ _ _ _ ?wm = _ =>
                destruct (IH _ _ _ _ H) as (evs & G & Cm & Cv & Rf & Rok); [ lia | ];
                eapply grows_then with (w1 := wm) (Q := eq evs);
                [ solve [ grown ] | exists evs; split; [ exact G | reflexivity ] | ];
                intros evs2 <-; count_more;
                conj_split;
                [ lia | lia | intros He; specialize (Rf He); lia | ];
                intros He; destruct (Rok He) as (Ht & Hm & v & st & Bv & Hv);
                conj_split; [ exact Ht | lia | ];
                exists v, st; split; [ | exact Hv ];
                eapply between_widen; [ | exact Bv | apply grows_refl ]; grown
            end; fail).
  (* a convergence wait took place *)
  all: match goal with
       | W : waitHomingDone _ _ _ ?wa = Ret ?a ?w0 |- _ =>
           destruct (waitHomingDone_facts _ _ _ _ _ _ W)
             as (evsW & GW & CmW & CvW & RW);
           assert (GP : exists evsP,
                      grows w wa evsP /\
                      count is_mode_set evsP = 1%nat /\ count is_move evsP = 1%nat)
             by (eexists; split; [ grown | split; reflexivity ]);
           destruct GP as (evsP & GP & CmP & CvP)
       end.
  all: match goal with
       | Q : InitError_eqb ?a _ = true |- _ =>
           apply InitError_eqb_eq in Q; subst a; injection H as <- <-;
           exists (evsW ++ evsP); split; [ eapply grows_trans; eassumption | ];
           rewrite !count_app, CmW, CvW, CmP, CvP;
           conj_split; try discriminate; try lia;
           (intros He; destruct (RW He) as (Ht & v & st & Bv & Hv);
            conj_split; [ exact Ht | lia | ];
            exists v, st; split; [ | exact Hv ];
            eapply between_widen; [ exact GP | exact Bv | apply grows_refl ])
       | _ =>
           destruct (IH _ _ _ _ H) as (evs & G & Cm & Cv & Rf & Rok); [ lia | ];
           exists (evs ++ evsW ++ evsP);
           split; [ eapply grows_trans; [ eapply grows_trans; eassumption | exact G ] | ];
           rewrite !count_app, CmW, CvW, CmP, CvP;
           conj_split;
           [ lia | lia | intros He; specialize (Rf He); lia | ];
           intros He; destruct (Rok He) as (Ht & Hm & v & st & Bv & Hv);
           conj_split; [ exact Ht | lia | ];
           exists v, st; split; [ | exact Hv ];
           eapply between_widen;
           [ eapply grows_trans; eassumption | exact Bv | apply grows_refl ]
       end.
Qed.


(** ** Runs that succeed *)

Lemma reaches_refl w : reaches w w.
Proof. exists []. constructor. Qed.

Lemma reaches_trans a b c : reaches a b -> reaches b c -> reaches a c.
Proof. intros (x & Gx) (y & Gy). eexists. eapply grows_trans; eassumption. Qed.

Lemma between_reaches w v w' : between w v w' <-> reaches w v /\ reaches v w'.
Proof.
  split.
  - intros (a & b & Ga & Gb). split; eexists; eassumption.
  - intros ((a & Ga) & (b & Gb)). exists a, b. split; assumption.
Qed.

Lemma step_reaches cfg dev fuel k w e w' :
  step_fn cfg dev fuel k w = Ret e w' -> reaches w w'.
Proof.
  intros H. destruct (step_fn_post _ _ _ _ _ _ _ H) as (evs & G & _).
  exists evs. exact G.
Qed.

(** One link of the chain of [run]. *)
Lemma chain_ok (m k : M InitError) w w' :
  (err <- m ;; if negb (InitError_eqb err OK) then ret err else k) w = Ret OK w' ->
  exists w1, m w = Ret OK w1 /\ k w1 = Ret OK w'.
Proof.
  rewrite bind_run. destruct (m w) as [ e w1 | | ]; try discriminate.
  destruct e; simpl; intros H; try discriminate H.
  exists w1. split; [ reflexivity | exact H ].
Qed.

(** A run returns [OK] only when each of the six steps did. *)
Lemma run_ok_steps cfg dev fuel w w' :
  run cfg dev fuel w = Ret OK w' ->
  exists w1 w2 w3 w4 w5 w6,
    createInterface cfg dev (started cfg w) = Ret OK w1 /\
    connectPort dev w1 = Ret OK w2 /\
    waitForConnection cfg dev fuel w2 = Ret OK w3 /\
    checkArmStatus dev w3 = Ret OK w4 /\
    enableMotors cfg dev fuel w4 = Ret OK w5 /\
    performHoming cfg dev fuel w5 = Ret OK w6 /\
    w' = extend 0 (Logged INFO "Piper arm init completed") w6.
Proof.
  unfold run. rewrite bind_run. cbn [info log]. fold (started cfg w). intros H.
  apply chain_ok in H. destruct H as (w1 & S1 & H).
  apply chain_ok in H. destruct H as (w2 & S2 & H).
  apply chain_ok in H. destruct H as (w3 & S3 & H).
  apply chain_ok in H. destruct H as (w4 & S4 & H).
  apply chain_ok in H. destruct H as (w5 & S5 & H).
  apply chain_ok in H. destruct H as (w6 & S6 & H).
  run_known H. injection H as <-.
  exists w1, w2, w3, w4, w5, w6. repeat split; assumption.
Qed.

Lemma waitForConnection_ok cfg dev fuel w w' :
  waitForConnection cfg dev fuel w = Ret OK w' ->
  0 < connect_timeout cfg /\
  exists v,
    between w v w' /\
    connected (on_get_connect_status dev v) = true /\
    stale (on_get_connect_status dev v) = false.
Proof.
  unfold waitForConnection. intros H. run_known H.
  destruct (waitForConnection_loop_facts _ _ _ _ _ _ _ H) as (evs & G & _ & R).
  destruct (R eq_refl) as (Hlt & v & B & Hv). split; [ lia | ].
  exists v. split; [ | exact Hv ].
  eapply between_widen; [ | exact B | apply grows_refl ]. grown.
Qed.

Lemma enableMotors_ok_confirmed cfg dev fuel w w' :
  enableMotors cfg dev fuel w = Ret OK w' ->
  exists v, between w v w' /\ on_enable_piper dev v = true.
Proof.
  intros H. destruct (enableMotors_parts _ _ _ _ _ _ H) as (w0 & res & w1 & S0 & S1 & S2).
  destruct (send_enable_counts _ _ _ _ S0) as (evs0 & G0 & _).
  destruct (enable_fast_loop_counts _ _ _ _ _ _ S1) as (evs1 & G1 & _ & _ & _ & _ & R);
    [ unfold MAX_RETRIES; lia | ].
  destruct res as [ e1 | r ]; unfold enable_escalate in S2.
  - destruct (enable_fast_loop_post _ _ _ _ _ _ S1) as [ _ Q ].
    injection S2 as -> _. specialize (Q _ eq_refl). discriminate Q.
  - destruct (R r eq_refl) as (_ & _ & _ & Rc).
    run_known S2.
    + destruct (enable_long_loop_counts _ _ _ _ _ _ _ S2) as (evs2 & G2 & _ & R2).
      destruct (R2 eq_refl) as (v & B & Hv). exists v. split; [ | exact Hv ].
      eapply between_widen; [ eapply grows_trans; eassumption | exact B | constructor ].
    + injection S2 as <-. apply Z.leb_gt in E.
      destruct (Rc E) as (v & B & Hv). exists v. split; [ | exact Hv ].
      eapply between_widen; [ exact G0 | exact B | grown ].
Qed.

Lemma performHoming_ok_converged cfg dev fuel w w' :
  performHoming cfg dev fuel w = Ret OK w' ->
  0 < home_timeout cfg /\
  1 <= home_retry_count cfg /\
  exists v st,
    between w v w' /\
    on_get_arm_status dev v = Some st /\ error_code st = 0 /\
    all_at_target (position_mdeg st) (target_joints cfg) = true.
Proof.
  unfold performHoming. intros H. run_known H.
  destruct (homing_loop_facts _ _ _ _ _ _ _ _ H) as (evs & G & Cm & Cv & _ & Rok);
    [ rewrite Z.sub_0_r; reflexivity | ].
  destruct (Rok eq_refl) as (Ht & Hm & v & st & Bv & Hv).
  split; [ exact Ht | ]. split; [ lia | ].
  exists v, st. split; [ | exact Hv ].
  eapply between_widen; [ | exact Bv | apply grows_refl ]. grown.
Qed.

(** X8. A run returns [OK] only after, in this order, the connection
    status was read connected and not stale, a confirmation check
    answered true, and the arm status was read without error code and
    with every compared joint within tolerance of its target. *)
Theorem success_is_sound (cfg : Config) (dev : Device) (fuel : nat) (w w' : World) :
  run cfg dev fuel w = Ret OK w' ->
  exists v1 v2 v3 st,
    reaches w v1 /\ reaches v1 v2 /\ reaches v2 v3 /\ reaches v3 w' /\
    connected (on_get_connect_status dev v1) = true /\
    stale (on_get_connect_status dev v1) = false /\
    on_enable_piper dev v2 = true /\
    on_get_arm_status dev v3 = Some st /\
    error_code st = 0 /\
    all_at_target (position_mdeg st) (target_joints cfg) = true.
Proof.
  intros H.
  destruct (run_ok_steps _ _ _ _ _ H)
    as (w1 & w2 & w3 & w4 & w5 & w6 & S1 & S2 & S3 & S4 & S5 & S6 & ->).
  pose proof (step_reaches cfg dev fuel Create _ _ _ S1) as R1.
  pose proof (step_reaches cfg dev fuel Connect _ _ _ S2) as R2.
  pose proof (step_reaches cfg dev fuel CheckStatus _ _ _ S4) as R4.
  destruct (waitForConnection_ok _ _ _ _ _ S3) as (_ & v1 & B1 & Hc & Hs).
  destruct (enableMotors_ok_confirmed _ _ _ _ _ S5) as (v2 & B2 & He).
  destruct (performHoming_ok_converged _ _ _ _ _ S6)
    as (_ & _ & v3 & st & B3 & Hst & Hz & Ht).
  apply between_reaches in B1, B2, B3.
  destruct B1 as [ B1a B1b ]. destruct B2 as [ B2a B2b ]. destruct B3 as [ B3a B3b ].
  exists v1, v2, v3, st. conj_split; try assumption.
  - eapply reaches_trans; [ | exact B1a ].
    eapply reaches_trans; [ | exact R2 ].
    eapply reaches_trans; [ | exact R1 ].
    eexists. apply grows_started.
  - eapply reaches_trans; [ exact B1b | ].
    eapply reaches_trans; [ exact R4 | exact B2a ].
  - eapply reaches_trans; [ exact B2b | exact B3a ].
  - eapply reaches_trans; [ exact B3b | ]. eexists. grown.
Qed.


(** ** The link wait against a link that is never fresh *)



(** ** A missing arm status *)



(** ** Homing against a device that refuses the mode-set *)

Lemma homing_loop_refused cfg dev fuel :
  (forall v, g_shutdown_requested dev v = false) ->
  (forall v, ok (on_motion_control_2 dev v) = false) ->
  forall k retry w,
    0 <= retry ->
    k = Z.to_nat (home_retry_count cfg - retry) ->
    exists w' evs,
      homing_loop cfg dev fuel k retry w = Ret HOME_FAILED w' /\
      grows w w' evs /\
      count is_mode_set evs = k /\
      count is_call evs = k /\
      count is_any_sleep evs = count (is_sleep 1000) evs /\
      count (is_sleep 1000) evs = (if 0 <? retry then k else Nat.pred k).
Proof.
  intros Hquiet Hrefused.
  induction k as [ | k IH ]; intros retry w Hr Hk; cbn [homing_loop].
  - destruct (Z.ltb_spec retry (home_retry_count cfg)) as [ Hlt | Hge ]; [ lia | ].
    reduce_goal. eexists. eexists. split; [ reflexivity | ].
    split; [ grown | ]. count_more. destruct (0 <? retry); repeat split.
  - destruct (Z.ltb_spec retry (home_retry_count cfg)) as [ Hlt | Hge ]; [ | lia ].
    reduce_goal. rewrite Hquiet.
    destruct (Z.ltb_spec 0 retry) as [ Hpos | Hzero ]; reduce_goal;
      rewrite Hrefused; cbn [negb]; reduce_goal;
      match goal with
      | |- context [homing_loop cfg dev fuel k (retry + 1) ?wm] =>
          destruct (IH (retry + 1) wm) as (w' & evs & E & G & Cm & Cc & Ca & Cs);
          [ lia | lia | ];
          exists w'; eexists; split; [ exact E | ];
          split; [ eapply grows_trans; [ | exact G ]; grown | ]
      end;
      count_more; rewrite Cm, Cc, Ca, Cs;
      (replace (0 <? retry + 1) with true by (symmetry; apply Z.ltb_lt; lia));
      repeat split; lia.
Qed.

(** X12. When every mode-set command is refused and nobody asks for
    shutdown, the homing step never sends a move command and never reads
    the arm status: its only calls are [home_retry_count] mode-set
    commands, separated by sleeps of one second, and it returns
    [HOME_FAILED] without using the convergence wait. *)
Theorem refused_mode_set_never_moves (cfg : Config) (dev : Device) (fuel : nat)
    (w : World) :
  (forall v, g_shutdown_requested dev v = false) ->
  (forall v, ok (on_motion_control_2 dev v) = false) ->
  exists w' evs,
    performHoming cfg dev fuel w = Ret HOME_FAILED w' /\
    grows w w' evs /\
    count is_mode_set evs = Z.to_nat (home_retry_count cfg) /\
    count is_call evs = Z.to_nat (home_retry_count cfg) /\
    count is_move evs = 0%nat /\
    count is_status_poll evs = 0%nat /\
    count is_any_sleep evs = Nat.pred (Z.to_nat (home_retry_count cfg)) /\
    count (is_sleep 1000) evs = Nat.pred (Z.to_nat (home_retry_count cfg)).
Proof.
  intros Hquiet Hrefused.
  destruct (homing_loop_refused cfg dev fuel Hquiet Hrefused
              (Z.to_nat (home_retry_count cfg)) 0
              (extend 0 (Logged INFO "Performing homing...") w))
    as (w' & evs & E & G & Cm & Cc & Ca & Cs);
    [ lia | rewrite Z.sub_0_r; reflexivity | ].
  cbn in Cs.
  assert (Disjoint : forall (p : Event -> bool),
             (forall e, p e = true -> is_call e = true /\ is_mode_set e = false) ->
             count p evs = 0%nat).
  { intros p I.
    assert (T : (count p evs + count is_mode_set evs <= count is_call evs)%nat).
    { clear - I. induction evs as [ | x l IHl ]; [ reflexivity | ].
      rewrite !count_cons.
      destruct (p x) eqn:Px.
      - destruct (I _ Px) as [ -> -> ]. lia.
      - destruct (is_mode_set x) eqn:Mx; [ | destruct (is_call x); lia ].
        assert (is_call x = true) as -> by (destruct x as [ s [] | | | ]; auto; discriminate).
        lia. }
    lia. }
  exists w'. eexists. split; [ unfold performHoming; reduce_goal; exact E | ].
  split; [ eapply grows_trans; [ | exact G ]; grown | ].
  count_more. rewrite Cm, Cc, Ca, Cs.
  rewrite (Disjoint is_move), (Disjoint is_status_poll).
  - repeat split; lia.
  - intros [ s [] | | | ]; simpl; intros Q; try discriminate Q; split; reflexivity.
  - intros [ s [] | | | ]; simpl; intros Q; try discriminate Q; split; reflexivity.
Qed.

(** ** The run against a device that does everything at once *)




Section PromptDevice.

Variable cfg : Config.
Variable dev : Device.
Variable fuel : nat.

Hypothesis transport_opens : forall v, on_make_transport dev v = None.
Hypothesis interface_opens : forall v, on_make_interface dev v = None.
Hypothesis port_connects : forall v, ok (on_connect_port dev v) = true.
Hypothesis link_fresh :
  forall v, on_get_connect_status dev v = {| connected := true; stale := false |}.
Hypothesis motors_confirm : forall v, on_enable_piper dev v = true.
Hypothesis mode_set_acked : forall v, ok (on_motion_control_2 dev v) = true.
Hypothesis move_acked : forall v, ok (on_move_joint dev v) = true.
Hypothesis arm_at_target :
  forall v, exists st,
    on_get_arm_status dev v = Some st /\ error_code st = 0 /\
    all_at_target (position_mdeg st) (target_joints cfg) = true.
Hypothesis no_shutdown : forall v, g_shutdown_requested dev v = false.








End PromptDevice.


(** ** The exit code *)

Lemma run_steps_inv cfg dev fuel l : forall w e w',
  run_steps cfg dev fuel l w = Ret e w' ->
  e <> OK ->
  exists l1 k l2 wk,
    l = l1 ++ k :: l2 /\
    all_ok cfg dev fuel l1 w = Some wk /\
    step_fn cfg dev fuel k wk = Ret e w'.
Proof.
  induction l as [ | s l IH ]; intros w e w' H Hne.
  - simpl in H. run_known H. injection H as <- _. contradiction.
  - simpl in H. rewrite bind_run in H.
    destruct (step_fn cfg dev fuel s w) as [ e1 w1 | | ] eqn:E; try discriminate H.
    destruct (InitError_eqb e1 OK) eqn:Q; simpl in H.
    + apply InitError_eqb_eq in Q. subst e1.
      destruct (IH _ _ _ H Hne) as (l1 & k & l2 & wk & -> & A & S).
      exists (s :: l1), k, l2, wk. split; [ reflexivity | ].
      split; [ simpl; rewrite E; exact A | exact S ].
    + injection H as <- <-.
      exists [], s, l, w. repeat split. exact E.
Qed.

Lemma all_steps_split_inv l1 k l2 :
  all_steps = l1 ++ k :: l2 -> l1 = steps_before k.
Proof.
  unfold all_steps. intros H.
  repeat (destruct l1 as [ | ? l1 ]; simpl in H;
          [ injection H as <- _; reflexivity | injection H as <- H ]).
  destruct l1; discriminate H.
Qed.

Lemma run_failed_at cfg dev fuel w e w' :
  run cfg dev fuel w = Ret e w' -> e <> OK ->
  exists k,
    failed_at cfg dev fuel w e w' k /\ InitError_mem e (outcomes k) = true.
Proof.
  rewrite run_as_steps. intros H Hne.
  destruct (run_steps_inv _ _ _ _ _ _ _ H Hne) as (l1 & k & l2 & wk & L & A & S).
  apply all_steps_split_inv in L. subst l1.
  exists k. split; [ exists wk; split; assumption | ].
  destruct (step_fn_post _ _ _ _ _ _ _ S) as (_ & _ & _ & _ & O & _). exact O.
Qed.

(** X14. The result of a run names the step that ended it:
    [CAN_OPEN_FAILED] comes from the create step, [CONNECT_FAILED] from
    the connect step or the link wait, [ARM_ERROR] from the status check,
    [ENABLE_TIMEOUT] from the enable step, [HOME_FAILED] from the homing
    step, and [SIGNAL_INTERRUPTED] from one of the three steps that poll;
    in each case the steps before it had returned [OK]. *)
Theorem failure_code_locates_step (cfg : Config) (dev : Device) (fuel : nat)
    (w : World) (e : InitError) (w' : World) :
  run cfg dev fuel w = Ret e w' ->
  match e with
  | OK => True
  | CAN_OPEN_FAILED => failed_at cfg dev fuel w e w' Create
  | CONNECT_FAILED =>
      failed_at cfg dev fuel w e w' Connect \/ failed_at cfg dev fuel w e w' AwaitLink
  | ARM_ERROR => failed_at cfg dev fuel w e w' CheckStatus
  | ENABLE_TIMEOUT => failed_at cfg dev fuel w e w' Enable
  | HOME_FAILED => failed_at cfg dev fuel w e w' Home
  | SIGNAL_INTERRUPTED =>
      failed_at cfg dev fuel w e w' AwaitLink \/
      failed_at cfg dev fuel w e w' Enable \/
      failed_at cfg dev fuel w e w' Home
  | ENABLE_FAILED | HOME_TIMEOUT | STATUS_CHECK_FAILED => False
  end.
Proof.
  intros H.
  destruct e; try exact I;
    (destruct (run_failed_at _ _ _ _ _ _ H) as (k & F & O); [ discriminate | ]);
    destruct k; simpl in O; try discriminate O; auto.
Qed.

(** X15. [main] returns the enumerator value of what [run] returned under
    [main]'s configuration: 0 exactly for [OK], otherwise one of 1, 2, 4,
    5, 7 and 9, after one more log line. *)
Theorem main_exit_code (dev : Device) (fuel : nat) (w : World) (z : Z) (w' : World) :
  main dev fuel w = Ret z w' ->
  exists e w1 lvl msg,
    run main_config dev fuel w = Ret e w1 /\
    z = exit_code e /\
    (z = 0 <-> e = OK) /\
    (z = 0 \/ z = 1 \/ z = 2 \/ z = 4 \/ z = 5 \/ z = 7 \/ z = 9) /\
    w' = extend 0 (Logged lvl msg) w1 /\
    (lvl = INFO <-> e = OK).
Proof.
  unfold main. rewrite bind_run.
  destruct (run main_config dev fuel w) as [ e w1 | | ] eqn:R; try discriminate.
  intros H.
  assert (O : e = OK \/ exists k, InitError_mem e (outcomes k) = true).
  { destruct (run_post _ _ _ _ _ _ R) as (_ & _ & _ & O & _). exact O. }
  assert (Codes : exit_code e = 0 \/ exit_code e = 1 \/ exit_code e = 2 \/
                  exit_code e = 4 \/ exit_code e = 5 \/ exit_code e = 7 \/
                  exit_code e = 9).
  { destruct O as [ -> | (k & O) ]; [ left; reflexivity | ].
    destruct k, e; simpl in O; try discriminate O; simpl; tauto. }
  run_known H; injection H as <- <-.
  - apply InitError_eqb_eq in E. subst e.
    exists OK, w1, INFO, "Exit code: 0". repeat split; auto.
  - exists e, w1, ERROR, ("Exit code: " +++ to_string (exit_code e)).
    assert (Hne : e <> OK) by (intros ->; discriminate E).
    repeat split; auto; try discriminate.
    + intros Z0. destruct e; try discriminate Z0. reflexivity.
    + intros ->. contradiction.
    + intros ->. contradiction.
Qed.

(** ** The comparison loop *)

Lemma within_tolerance_firstn_l position : forall target,
  within_tolerance (firstn (List.length target) position) target
  = within_tolerance position target.
Proof.
  induction position as [ | p ps IH ]; intros [ | t ts ]; simpl; try reflexivity.
  destruct (kPositionTolerance <? joint_diff p t); [ reflexivity | apply IH ].
Qed.

Lemma within_tolerance_firstn_r position : forall target,
  within_tolerance position (firstn (List.length position) target)
  = within_tolerance position target.
Proof.
  induction position as [ | p ps IH ]; intros [ | t ts ]; simpl; try reflexivity.
  destruct (kPositionTolerance <? joint_diff p t); [ reflexivity | apply IH ].
Qed.

(** X16. The comparison of [waitHomingDone] looks at the joints present
    in both vectors only: reported joints beyond the number of targets,
    and targets beyond the number of reported joints, never change its
    verdict. *)
Theorem surplus_joints_ignored (position target : list Z) :
  all_at_target (firstn (List.length target) position) target
  = all_at_target position target /\
  all_at_target position (firstn (List.length position) target)
  = all_at_target position target /\
  (forall extra, (List.length target <= List.length position)%nat ->
     all_at_target (position ++ extra) target = all_at_target position target) /\
  (forall extra, (List.length position <= List.length target)%nat ->
     all_at_target position (target ++ extra) = all_at_target position target).
Proof.
  rewrite !all_at_target_structural.
  split; [ apply within_tolerance_firstn_l | ].
  split; [ apply within_tolerance_firstn_r | ].
  split; intros extra Hlen; rewrite !all_at_target_structural.
  - rewrite <- (within_tolerance_firstn_l (position ++ extra)).
    rewrite <- (within_tolerance_firstn_l position).
    rewrite firstn_app.
    replace (List.length target - List.length position)%nat with 0%nat by lia.
    simpl. rewrite app_nil_r. reflexivity.
  - rewrite <- (within_tolerance_firstn_r position (target ++ extra)).
    rewrite <- (within_tolerance_firstn_r position target).
    rewrite firstn_app.
    replace (List.length position - List.length target)%nat with 0%nat by lia.
    simpl. rewrite app_nil_r. reflexivity.
Qed.

(** ** A shutdown request that is already pending *)


(** ** The back-off between homing attempts *)

Lemma waitHomingDone_later cfg dev fuel w e w' :
  waitHomingDone cfg dev fuel w = Ret e w' -> now w <= now w'.
Proof.
  intros H. destruct (waitHomingDone_post _ _ _ _ _ _ H) as (evs & G & _).
  eapply grows_now. exact G.
Qed.

Lemma homing_loop_backoff cfg dev fuel k : forall retry w w',
  homing_loop cfg dev fuel k retry w = Ret HOME_FAILED w' ->
  0 <= retry ->
  k = Z.to_nat (home_retry_count cfg - retry) ->
  now w + 1000 * (Z.of_nat k - (if 0 <? retry then 0 else 1)) <= now w'.
Proof.
  induction k as [ | k IH ]; intros retry w w' H Hr Hk;
    cbn [homing_loop] in H; run_known H; ltb_hyps.
  all: try (injection H as <-; rewrite ?now_extend;
            destruct (0 <? retry); lia).
  all: try match goal with
       | W : waitHomingDone _ _ _ _ = Ret _ _ |- _ =>
           apply waitHomingDone_later in W; rewrite ?now_extend in W
       end.
  all: try (match goal with
            | Q : InitError_eqb ?a _ = true |- _ =>
                apply InitError_eqb_eq in Q; subst a; discriminate H
            end).
  all: apply IH in H; [ | lia | lia ];
    rewrite (proj2 (Z.ltb_lt 0 (retry + 1))) in H by lia;
    rewrite ?now_extend in H;
    destruct (Z.ltb_spec 0 retry); lia.
Qed.

(** X18. The homing step gives up no sooner than its back-off allows:
    with [home_retry_count >= 1] it returns [HOME_FAILED] at least
    [home_retry_count - 1] seconds after it began, whatever the device
    did. *)
Theorem homing_failure_not_early (cfg : Config) (dev : Device) (fuel : nat)
    (w w' : World) :
  performHoming cfg dev fuel w = Ret HOME_FAILED w' ->
  1 <= home_retry_count cfg ->
  now w + 1000 * (home_retry_count cfg - 1) <= now w'.
Proof.
  unfold performHoming. intros H Hn. run_known H.
  apply homing_loop_backoff in H; [ | lia | rewrite Z.sub_0_r; reflexivity ].
  change (0 <? 0) with false in H. rewrite now_extend in H. lia.
Qed.

(** ** The further properties at work *)



Lemma fast_loop_bounded_witness :
  exists res w' evs,
    enable_fast_loop unconfirmed (S (Z.to_nat MAX_RETRIES)) 0 boot = Ret res w' /\
    grows boot w' evs /\
    (count is_confirm_poll evs <= 201)%nat /\
    (count is_any_sleep evs <= 200)%nat /\
    count is_any_sleep evs = count (is_sleep 10) evs /\
    (forall e, res = inl e -> e = SIGNAL_INTERRUPTED) /\
    (forall r, res = inr r -> 0 <= r <= 200 /\ count is_any_sleep evs = Z.to_nat r).
Proof. apply (fast_loop_bounded unconfirmed boot). Defined.

Lemma enable_command_sent_once_witness :
  exists evs,
    grows boot enabled_world evs /\
    count is_enable_command evs = 1%nat /\
    In (Called Enable (enable_arm 7)) evs /\
    (OK = OK -> exists v, between boot v enabled_world /\ on_enable_piper homing_arm v = true).
Proof.
  apply (enable_command_sent_once quick_config homing_arm 20 boot OK enabled_world).
  vm_compute. reflexivity.
Defined.




Lemma success_is_sound_witness :
  exists v1 v2 v3 st,
    reaches boot v1 /\ reaches v1 v2 /\ reaches v2 v3 /\ reaches v3 homed_world /\
    connected (on_get_connect_status homing_arm v1) = true /\
    stale (on_get_connect_status homing_arm v1) = false /\
    on_enable_piper homing_arm v2 = true /\
    on_get_arm_status homing_arm v3 = Some st /\
    error_code st = 0 /\
    all_at_target (position_mdeg st) (target_joints quick_config) = true.
Proof.
  apply (success_is_sound quick_config homing_arm 20 boot homed_world).
  vm_compute. reflexivity.
Defined.




Lemma refused_mode_set_never_moves_witness :
  exists w' evs,
    performHoming quick_config deaf_arm 0 boot = Ret HOME_FAILED w' /\
    grows boot w' evs /\
    count is_mode_set evs = Z.to_nat (home_retry_count quick_config) /\
    count is_call evs = Z.to_nat (home_retry_count quick_config) /\
    count is_move evs = 0%nat /\
    count is_status_poll evs = 0%nat /\
    count is_any_sleep evs = Nat.pred (Z.to_nat (home_retry_count quick_config)) /\
    count (is_sleep 1000) evs = Nat.pred (Z.to_nat (home_retry_count quick_config)).
Proof.
  apply (refused_mode_set_never_moves quick_config deaf_arm 0 boot).
  - reflexivity.
  - reflexivity.
Defined.


Lemma failure_code_locates_step_witness :
  failed_at quick_config broken_arm 20 boot ARM_ERROR arm_error_world CheckStatus.
Proof.
  apply (failure_code_locates_step quick_config broken_arm 20 boot ARM_ERROR
           arm_error_world).
  vm_compute. reflexivity.
Defined.

Lemma main_exit_code_witness :
  exists e w1 lvl msg,
    run main_config homing_arm 20 boot = Ret e w1 /\
    0 = exit_code e /\
    (0 = 0 <-> e = OK) /\
    (0 = 0 \/ 0 = 1 \/ 0 = 2 \/ 0 = 4 \/ 0 = 5 \/ 0 = 7 \/ 0 = 9) /\
    main_done_world = extend 0 (Logged lvl msg) w1 /\
    (lvl = INFO <-> e = OK).
Proof.
  apply (main_exit_code homing_arm 20 boot 0 main_done_world).
  vm_compute. reflexivity.
Defined.

Lemma surplus_joints_ignored_witness :
  all_at_target ([-90000; 0; 0; 0; 0; 0] ++ [123456]) [-90000; 0; 0; 0; 0; 0]
  = all_at_target [-90000; 0; 0; 0; 0; 0] [-90000; 0; 0; 0; 0; 0] /\
  all_at_target [-90000; 0] ([-90000; 0] ++ [0; 0; 0; 0])
  = all_at_target [-90000; 0] [-90000; 0].
Proof.
  destruct (surplus_joints_ignored [-90000; 0; 0; 0; 0; 0] [-90000; 0; 0; 0; 0; 0])
    as (_ & _ & A & _).
  destruct (surplus_joints_ignored [-90000; 0] [-90000; 0]) as (_ & _ & _ & B).
  split; [ apply A | apply B ]; simpl; lia.
Defined.


Lemma homing_failure_not_early_witness :
  now boot + 1000 * (home_retry_count quick_config - 1) <= now homing_failed_world.
Proof.
  apply (homing_failure_not_early quick_config stuck_arm 20 boot homing_failed_world).
  - vm_compute. reflexivity.
  - simpl. lia.
Defined.
